(** * H5P.InteractiveVideoInteraction: a shallow embedding of
    [scripts/interaction.js] and the properties of its visibility state
    machine, presentation selector, image fitting and mutation methods.

    The closure of an [Interaction] is a record passed from call to call.
    What lives outside of it is kept as a trace: the DOM nodes made, the
    runnables instantiated, the [display] events and [resize] notifications
    sent, the callbacks waiting for the next tick.  What the browser measures
    (computed styles, positions, the text of a piece of HTML) is an argument
    of the call.  Listeners of [display] are taken not to call back into the
    interaction.  The click handler with [openDialog], and [addDot], only
    talk to the host, and to a runnable that [openDialog] keeps in a local
    variable of its own: they are embedded after the methods, with what they
    ask of the host logged as a list of effects next to the outcome, and
    [resizeImage] as the function from sizes to sizes it is.  Numbers are
    doubles: the sums, products and quotients of the code are rounded.  [getCopyrights] is left out: it
    rests on [humanizeTime], which is not part of this file, and on what a
    detached runnable answers. *)

From Stdlib Require Import ZArith QArith Qround Qpower Lia Lqa Ascii String
  SpecFloat.
From stdpp Require Import base option list strings.

Local Open Scope string_scope.

(** ** JavaScript numbers

    A JavaScript number is a double: it is modelled by its value, an exact
    rational for a finite double (a single unsigned zero), the two
    infinities, or NaN.  Comparisons, [Math.round] and [parseInt] are exact
    functions of the values.  Sums, differences, products and quotients are
    not: [Num] holds the exact operations, [Dbl] below the operations the
    code runs, which round the exact result to the nearest double.  Results
    are stored in lowest terms so that equal numbers are equal terms. *)

Inductive number : Type :=
| Fin (q : Q)
| PInf
| NInf
| NaN.

Definition Qltb (a b : Q) : bool :=
  (Qnum a * Zpos (Qden b) <? Qnum b * Zpos (Qden a))%Z.

Definition Qsign (q : Q) : Z := Z.sgn (Qnum q).

Module Num.

Definition of_Z (z : Z) : number := Fin (inject_Z z).

(** [a < b]: false as soon as one side is NaN. *)
Definition lt (a b : number) : bool :=
  match a, b with
  | NaN, _ | _, NaN => false
  | Fin x, Fin y => Qltb x y
  | NInf, NInf => false
  | NInf, _ => true
  | _, NInf => false
  | PInf, _ => false
  | Fin _, PInf => true
  end.

(** [a > b] is [b < a] with the operands evaluated left to right. *)
Definition gt (a b : number) : bool := lt b a.

Definition neg (a : number) : number :=
  match a with
  | Fin q => Fin (Qred (- q))
  | PInf => NInf
  | NInf => PInf
  | NaN => NaN
  end.

(** An infinity scaled by a finite factor of sign [s]. *)
Definition scale_inf (inf : number) (s : Z) : number :=
  match s with
  | Z0 => NaN
  | Zpos _ => inf
  | Zneg _ => neg inf
  end.

Definition mul (a b : number) : number :=
  match a, b with
  | NaN, _ | _, NaN => NaN
  | Fin x, Fin y => Fin (Qred (x * y))
  | Fin x, (PInf | NInf) => scale_inf b (Qsign x)
  | (PInf | NInf), Fin y => scale_inf a (Qsign y)
  | PInf, PInf | NInf, NInf => PInf
  | PInf, NInf | NInf, PInf => NInf
  end.

Definition div (a b : number) : number :=
  match a, b with
  | NaN, _ | _, NaN => NaN
  | Fin x, Fin y =>
      match Qsign y with
      | Z0 => scale_inf PInf (Qsign x)
      | _ => Fin (Qred (x / y))
      end
  | Fin _, (PInf | NInf) => Fin 0
  | (PInf | NInf), Fin y =>
      match Qsign y with
      | Zneg _ => neg a
      | _ => a
      end
  | (PInf | NInf), (PInf | NInf) => NaN
  end.

Definition add (a b : number) : number :=
  match a, b with
  | NaN, _ | _, NaN => NaN
  | Fin x, Fin y => Fin (Qred (x + y))
  | PInf, NInf | NInf, PInf => NaN
  | PInf, _ | _, PInf => PInf
  | NInf, _ | _, NInf => NInf
  end.

(** [Math.round]: the nearest integer, ties towards plus infinity. *)
Definition round (a : number) : number :=
  match a with
  | Fin q => of_Z (Qfloor (q + (1 # 2)))
  | _ => a
  end.

(** [parseInt] applied to a CSS length.  The string is represented by the
    number its leading decimal numeral denotes ([NaN] when it has none, as
    for "auto"); [parseInt] keeps the integer part of that numeral. *)
Definition parseInt (a : number) : number :=
  match a with
  | Fin q => of_Z (Z.quot (Qnum q) (Zpos (Qden q)))
  | _ => NaN
  end.

(** Truthiness of a number: everything but zero and NaN. *)
Definition truthy (a : number) : bool :=
  match a with
  | Fin q => negb (Qsign q =? 0)%Z
  | NaN => false
  | _ => true
  end.

(** [a - b], exact. *)
Definition sub (a b : number) : number :=
  match a, b with
  | NaN, _ | _, NaN => NaN
  | Fin x, Fin y => Fin (Qred (x - y))
  | PInf, PInf | NInf, NInf => NaN
  | PInf, _ | _, NInf => PInf
  | NInf, _ | _, PInf => NInf
  end.

End Num.

(** *** Rounding to binary64

    IEEE 754 round to nearest, ties to even, at 53 bits of precision, with
    gradual underflow below [2^-1022] and overflow to an infinity from
    [2^1024 - 2^970] on. *)

Definition pow2 (c : Z) : Q := (2 ^ c)%Q.

(** The binary exponent of a positive rational: [2^e <= q < 2^(e+1)]. *)
Definition ilog2 (q : Q) : Z :=
  let l := (Z.log2 (Qnum q) - Z.log2 (Zpos (Qden q)))%Z in
  if Qle_bool (pow2 l) q then l else (l - 1)%Z.

(** The nearest integer, ties to the even one. *)
Definition rne (x : Q) : Z :=
  let f := Qfloor x in
  match (x - inject_Z f ?= 1 # 2)%Q with
  | Lt => f
  | Gt => (f + 1)%Z
  | Eq => if Z.even f then f else (f + 1)%Z
  end.

(** The exponent of the last place of the doubles around a positive [q]. *)
Definition quantum (q : Q) : Z := Z.max (ilog2 q - 52) (-1074).

(** The double nearest to a positive rational; [None] on overflow. *)
Definition round_pos (q : Q) : option Q :=
  let c := quantum q in
  let n := rne (q / pow2 c) in
  if (n <? 2 ^ (1024 - c))%Z then Some (Qred (inject_Z n * pow2 c)) else None.

(** The double nearest to a rational. *)
Definition round64 (q : Q) : number :=
  match Qnum q with
  | Z0 => Fin 0
  | Zpos _ =>
      match round_pos q with
      | Some r => Fin r
      | None => PInf
      end
  | Zneg _ =>
      match round_pos (- q) with
      | Some r => Fin (Qred (- r))
      | None => NInf
      end
  end.

(** Whether a rational is the value of a double. *)
Definition is_double (q : Q) : bool :=
  match round64 q with
  | Fin r => Qeq_bool r q
  | _ => false
  end.

(** The arithmetic operators of the language on doubles: the exact result,
    rounded. *)
Module Dbl.

(** The double a decimal numeral denotes. *)
Definition of_Q (q : Q) : number := round64 q.

Definition rnd (a : number) : number :=
  match a with
  | Fin q => round64 q
  | _ => a
  end.

Definition add (a b : number) : number := rnd (Num.add a b).
Definition sub (a b : number) : number := rnd (Num.sub a b).
Definition mul (a b : number) : number := rnd (Num.mul a b).
Definition div (a b : number) : number := rnd (Num.div a b).

End Dbl.

(** IEEE 754 binary64 again, as the standard library specifies it on
    sign, mantissa and exponent. *)
Module B64.

Definition prec : Z := 53.
Definition emax : Z := 1024.

(** The double nearest to [m * 2^e]. *)
Definition of_scaled (m e : Z) : spec_float :=
  binary_normalize prec emax m e false.

Definition of_Z (z : Z) : spec_float := of_scaled z 0.
Definition mul : spec_float -> spec_float -> spec_float := SFmul prec emax.
Definition div : spec_float -> spec_float -> spec_float := SFdiv prec emax.
Definition gt (a b : spec_float) : bool := SFltb b a.

(** The value of a double. *)
Definition val (f : spec_float) : number :=
  match f with
  | S754_zero _ => Fin 0
  | S754_infinity false => PInf
  | S754_infinity true => NInf
  | S754_nan => NaN
  | S754_finite s m e =>
      Fin (Qred (inject_Z (if s then Zneg m else Zpos m) * pow2 e))
  end.

End B64.

(** The arithmetic the image fitting needs, so that the one definition can
    be read in exact arithmetic ([number_arith], the instance found for
    [number]: what the fitting is meant to compute) and in the arithmetic of
    doubles the code runs in ([b64_arith] on the standard library's
    doubles, [double_arith] on their values). *)
Class Arith (N : Type) : Type := {
  num_of_Z : Z -> N;
  num_mul : N -> N -> N;
  num_div : N -> N -> N;
  num_gt : N -> N -> bool
}.

#[export] Instance number_arith : Arith number :=
  {| num_of_Z := Num.of_Z; num_mul := Num.mul;
     num_div := Num.div; num_gt := Num.gt |}.

#[export] Instance b64_arith : Arith spec_float :=
  {| num_of_Z := B64.of_Z; num_mul := B64.mul;
     num_div := B64.div; num_gt := B64.gt |}.

Definition double_arith : Arith number :=
  {| num_of_Z := Num.of_Z; num_mul := Dbl.mul;
     num_div := Dbl.div; num_gt := Num.gt |}.

(** ** JavaScript values the interaction handles as numbers: a number proper,
    or [undefined] for an absent property or argument. *)

Inductive value : Type :=
| VUndefined
| VNumber (n : number).

(** [ToNumber]. *)
Definition to_number (v : value) : number :=
  match v with
  | VUndefined => NaN
  | VNumber n => n
  end.

Definition truthy (v : value) : bool :=
  match v with
  | VUndefined => false
  | VNumber n => Num.truthy n
  end.

(** The relational operators convert both operands with [ToNumber]. *)
Definition js_lt (a b : value) : bool := Num.lt (to_number a) (to_number b).
Definition js_gt (a b : value) : bool := Num.gt (to_number a) (to_number b).

(** ** Strings: the pieces of [String.prototype] the constructor uses. *)

(** [s.split(sep)] for a one-character separator. *)
Fixpoint split_on (sep : ascii) (s : string) : list string :=
  match s with
  | EmptyString => [""]
  | String c rest =>
      if Ascii.eqb c sep then "" :: split_on sep rest
      else match split_on sep rest with
           | [] => [String c ""]
           | w :: ws => String c w :: ws
           end
  end.

Definition lower_ascii (c : ascii) : ascii :=
  let n := nat_of_ascii c in
  if (65 <=? n)%nat && (n <=? 90)%nat then ascii_of_nat (n + 32) else c.

(** [s.toLowerCase()] on the ASCII range library names are written in. *)
Fixpoint toLowerCase (s : string) : string :=
  match s with
  | EmptyString => EmptyString
  | String c rest => String (lower_ascii c) (toLowerCase rest)
  end.

(** String conversion of an array element in a concatenation: a missing
    element prints as "undefined". *)
Definition part_to_string (o : option string) : string :=
  match o with
  | Some s => s
  | None => "undefined"
  end.

(** ** Data model *)

(** A [{width, height}] object. *)
Record Size (N : Type) : Type := mkSize {
  sz_width : N;
  sz_height : N
}.
Arguments mkSize {N} _ _.
Arguments sz_width {N} _.
Arguments sz_height {N} _.

(** [parameters.action]. *)
Record Action : Type := mkAction {
  a_library : string;               (* "H5P.Name major.minor" *)
  a_contentName : option string;    (* action.params.contentName *)
  a_question_size : Size number     (* action.params.question.settings.size, px *)
}.

(** The caller-owned [parameters] object.  The interaction keeps a reference
    to it and writes [x], [y], [width] and [height] in place. *)
Record Params : Type := mkParams {
  p_action : Action;
  p_x : value;
  p_y : value;
  p_width : value;
  p_height : value;
  p_duration_from : value;          (* parameters.duration.from *)
  p_duration_to : value;            (* parameters.duration.to *)
  p_displayAsButton : option bool;  (* None: the property is absent *)
  p_label : option string;
  p_pause : bool;
  p_className : option string
}.

(** [parameters.from]: the object has no such property (the window is under
    [parameters.duration]), so reading it gives [undefined]. *)
Definition p_from (p : Params) : value := VUndefined.

(** A DOM node made by the interaction.  [n_class] lists the pieces the
    class attribute is assembled from; a CSS entry is a property with its
    numeric value and unit. *)
Record Node : Type := mkNode {
  n_tag : string;
  n_class : list string;
  n_css : list (string * (value * string));
  n_html : option string;
  n_parent : option nat;            (* appendTo target *)
  n_removed : bool                  (* .remove() was called on it *)
}.

(** Callbacks handed to [setTimeout(..., 0)].  Both read the closure
    variable when they run, not when they are scheduled. *)
Inductive Task : Type :=
| TransitionIn      (* $interaction.removeClass('h5p-hidden') *)
| ResizeInstance.   (* instance.$.trigger('resize') *)

Inductive Error : Type :=
| TypeError.

(** The closure of one [Interaction]: its constants, its three handles, the
    caller's parameters, and what it has done to the outside world (nodes
    made, runnables instantiated, events triggered, timers set). *)
Record State : Type := mkState {
  parameters : Params;
  library : string;
  title : string;
  classes : string;
  interaction : option nat;         (* $interaction *)
  label : option nat;               (* $label *)
  instance : option nat;            (* instance *)
  dom : list Node;                  (* nodes by handle, in creation order *)
  runnables : list nat;             (* mount node of each H5P.newRunnable *)
  displayed : list nat;             (* payloads of 'display' events *)
  resized : list nat;               (* instances sent 'resize' *)
  timers : list Task
}.

(** What the browser reports; a handle is the node's index in [dom]. *)
Record Browser : Type := mkBrowser {
  html_text : string -> string;     (* $converter.html(s).text() *)
  css_left : nat -> number;         (* leading numeral of .css('left') *)
  css_fontSize : nat -> number;     (* Number(.css('fontSize').replace('px','')) *)
  position_left : nat -> number;    (* .position().left *)
  outerWidth : nat -> number        (* .outerWidth() *)
}.

(** *** Field updates *)

Definition set_size (w h : value) (p : Params) : Params :=
  mkParams (p_action p) (p_x p) (p_y p) w h (p_duration_from p)
    (p_duration_to p) (p_displayAsButton p) (p_label p) (p_pause p)
    (p_className p).

Definition set_position (x y : value) (p : Params) : Params :=
  mkParams (p_action p) x y (p_width p) (p_height p) (p_duration_from p)
    (p_duration_to p) (p_displayAsButton p) (p_label p) (p_pause p)
    (p_className p).

Definition set_question_size (sz : Size number) (p : Params) : Params :=
  mkParams (mkAction (a_library (p_action p)) (a_contentName (p_action p)) sz)
    (p_x p) (p_y p) (p_width p) (p_height p) (p_duration_from p)
    (p_duration_to p) (p_displayAsButton p) (p_label p) (p_pause p)
    (p_className p).

Definition with_parameters (p : Params) (st : State) : State :=
  mkState p (library st) (title st) (classes st) (interaction st) (label st)
    (instance st) (dom st) (runnables st) (displayed st) (resized st)
    (timers st).

Definition with_interaction (h : option nat) (st : State) : State :=
  mkState (parameters st) (library st) (title st) (classes st) h (label st)
    (instance st) (dom st) (runnables st) (displayed st) (resized st)
    (timers st).

Definition with_label (h : option nat) (st : State) : State :=
  mkState (parameters st) (library st) (title st) (classes st)
    (interaction st) h (instance st) (dom st) (runnables st) (displayed st)
    (resized st) (timers st).

Definition with_instance (h : option nat) (st : State) : State :=
  mkState (parameters st) (library st) (title st) (classes st)
    (interaction st) (label st) h (dom st) (runnables st) (displayed st)
    (resized st) (timers st).

Definition with_dom (d : list Node) (st : State) : State :=
  mkState (parameters st) (library st) (title st) (classes st)
    (interaction st) (label st) (instance st) d (runnables st) (displayed st)
    (resized st) (timers st).

Definition with_runnables (r : list nat) (st : State) : State :=
  mkState (parameters st) (library st) (title st) (classes st)
    (interaction st) (label st) (instance st) (dom st) r (displayed st)
    (resized st) (timers st).

Definition with_displayed (l : list nat) (st : State) : State :=
  mkState (parameters st) (library st) (title st) (classes st)
    (interaction st) (label st) (instance st) (dom st) (runnables st) l
    (resized st) (timers st).

Definition with_resized (l : list nat) (st : State) : State :=
  mkState (parameters st) (library st) (title st) (classes st)
    (interaction st) (label st) (instance st) (dom st) (runnables st)
    (displayed st) l (timers st).

Definition with_timers (l : list Task) (st : State) : State :=
  mkState (parameters st) (library st) (title st) (classes st)
    (interaction st) (label st) (instance st) (dom st) (runnables st)
    (displayed st) (resized st) l.

(** ** Effects: state passing with exceptions.  A throw keeps the state
    reached so far, as nothing is rolled back. *)

Inductive outcome (A : Type) : Type :=
| Ok (a : A) (st : State)
| Throw (e : Error) (st : State).
Arguments Ok {A} a st.
Arguments Throw {A} e st.

Definition M (A : Type) : Type := State -> outcome A.

Definition ret {A} (a : A) : M A := fun st => Ok a st.

Definition bind {A B} (m : M A) (k : A -> M B) : M B :=
  fun st =>
    match m st with
    | Ok a st' => k a st'
    | Throw e st' => Throw e st'
    end.

Definition throw {A} (e : Error) : M A := fun st => Throw e st.
Definition get {A} (f : State -> A) : M A := fun st => Ok (f st) st.
Definition modify (f : State -> State) : M unit := fun st => Ok tt (f st).

Notation "'let!' x ':=' m 'in' k" := (bind m (fun x => k))
  (at level 10, x name, m at level 100, k at level 200).
Notation "m '>>' k" := (bind m (fun _ => k))
  (at level 65, right associativity).

Definition when (b : bool) (m : M unit) : M unit :=
  if b then m else ret tt.

Definition final_state {A} (o : outcome A) : State :=
  match o with
  | Ok _ st => st
  | Throw _ st => st
  end.

(** ** Primitive effects *)

(** [$('<tag/>', {...})]: a new node; its handle is its index. *)
Definition create_node (n : Node) : M nat :=
  fun st => Ok (length (dom st)) (with_dom (dom st ++ [n]) st).

(** [H5P.newRunnable(action, contentId, $mount)]. *)
Definition newRunnable (mount : nat) : M nat :=
  fun st => Ok (length (runnables st)) (with_runnables (runnables st ++ [mount]) st).

(** [self.trigger('display', $el)]: listeners run before the call returns. *)
Definition trigger_display (h : nat) : M unit :=
  modify (fun st => with_displayed (displayed st ++ [h]) st).

(** [instance.$.trigger('resize')] on the closure's [instance]; reading [$]
    of [undefined] throws. *)
Definition trigger_resize : M unit :=
  let! i := get instance in
  match i with
  | None => throw TypeError
  | Some i => modify (fun st => with_resized (resized st ++ [i]) st)
  end.

Definition setTimeout (t : Task) : M unit :=
  modify (fun st => with_timers (timers st ++ [t]) st).

Definition node_removeClass (c : string) (n : Node) : Node :=
  mkNode (n_tag n) (filter (fun c' => c' ≠ c) (n_class n)) (n_css n)
    (n_html n) (n_parent n) (n_removed n).

Definition node_addClass (c : string) (n : Node) : Node :=
  mkNode (n_tag n)
    (if bool_decide (c ∈ n_class n) then n_class n else n_class n ++ [c])
    (n_css n) (n_html n) (n_parent n) (n_removed n).

Definition node_remove (n : Node) : Node :=
  mkNode (n_tag n) (n_class n) (n_css n) (n_html n) (n_parent n) true.

Definition update_node (f : Node -> Node) (h : nat) : M unit :=
  modify (fun st => with_dom (alter f h (dom st)) st).

Definition hasClass (c : string) (h : nat) (st : State) : bool :=
  match dom st !! h with
  | Some n => bool_decide (c ∈ n_class n)
  | None => false
  end.

(** ** The constructor *)

(** [action.library.split(' ')[0]] *)
Definition library_of (a : Action) : string :=
  part_to_string (split_on " " (a_library a) !! 0%nat).

Definition classes_of (p : Params) : string :=
  match p_className p with
  | Some c => c
  | None =>
      let classParts := split_on "." (toLowerCase (library_of (p_action p))) in
      part_to_string (classParts !! 0%nat) ++ "-" ++
      part_to_string (classParts !! 1%nat) ++ "-interaction"
  end.

Definition Interaction (p : Params) (defaultInteractionLabel : string) : State :=
  {| parameters := p;
     library := library_of (p_action p);
     title := match a_contentName (p_action p) with
              | Some t => t
              | None => defaultInteractionLabel
              end;
     classes := classes_of p;
     interaction := None;
     label := None;
     instance := None;
     dom := [];
     runnables := [];
     displayed := [];
     resized := [];
     timers := [] |}.

(** ** Private functions *)

(** [parameters.label && $converter.html(parameters.label).text().length] *)
Definition label_has_text (br : Browser) (p : Params) : bool :=
  match p_label p with
  | None => false
  | Some l =>
      negb (String.eqb l "") &&
      negb (String.length (html_text br l) =? 0)%nat
  end.

Definition createButton (br : Browser) : M unit :=
  let! p := get parameters in
  let! cls := get classes in
  let! lib := get library in
  let! h := create_node
    {| n_tag := "div";
       n_class := ["h5p-interaction"; cls; "h5p-hidden"];
       n_css := [("left", (p_x p, "%")); ("top", (p_y p, "%"))];
       n_html := None; n_parent := None; n_removed := false |} in
  modify (with_interaction (Some h)) >>
  let! _a := create_node
    {| n_tag := "a";
       n_class := ["h5p-interaction-button"];
       n_css := [];
       n_html := None; n_parent := Some h; n_removed := false |} in
  (* Check to see if we should add label *)
  when (String.eqb lib "H5P.Nil" || label_has_text br p)
    (let! l := create_node
       {| n_tag := "div";
          n_class := ["h5p-interaction-label"];
          n_css := [];
          n_html := p_label p; n_parent := Some h; n_removed := false |} in
     modify (with_label (Some l))) >>
  trigger_display h >>
  setTimeout TransitionIn.

Definition or_ten (v : value) : value :=
  if truthy v then v else VNumber (Num.of_Z 10).

Definition createPoster : M unit :=
  let! p := get parameters in
  let! cls := get classes in
  let! h := create_node
    {| n_tag := "div";
       n_class := ["h5p-interaction"; "h5p-poster"; cls];
       n_css := [("left", (p_x p, "%")); ("top", (p_y p, "%"));
                 ("width", (or_ten (p_width p), "em"));
                 ("height", (or_ten (p_height p), "em"))];
       n_html := None; n_parent := None; n_removed := false |} in
  modify (with_interaction (Some h)) >>
  let! inner := create_node
    {| n_tag := "div";
       n_class := ["h5p-interaction-inner"];
       n_css := [];
       n_html := None; n_parent := Some h; n_removed := false |} in
  let! i := newRunnable inner in
  modify (with_instance (Some i)) >>
  (* Trigger event listeners *)
  trigger_display h >>
  (* Resize on next tick *)
  setTimeout ResizeInstance.

(** What [resizeImage] hands over: the image's CSS size in its own em, and
    the size passed to [dialog.position($interaction, size)]. *)
Record ImageFit (N : Type) : Type := mkImageFit {
  img_css : Size N;
  dialog_size : Size N
}.
Arguments mkImageFit {N} _ _.
Arguments img_css {N} _.
Arguments dialog_size {N} _.

(** [resizeImage($img, max, size)]; [imgFontSize] is
    [Number($img.css('fontSize').replace('px',''))].  Each [let] is one
    assignment to the [size] object. *)
Definition resizeImage {N} `{Arith N} (imgFontSize : N) (max size : Size N)
  : ImageFit N :=
  let fontSize := num_of_Z 16 in
  let size := mkSize (num_div (sz_width size) fontSize) (sz_height size) in
  let size := mkSize (sz_width size) (num_div (sz_height size) fontSize) in
  let size :=
    if num_gt (sz_height size) (sz_height max) then
      let size := mkSize (num_div (num_mul (sz_width size) (sz_height max))
                                  (sz_height size))
                         (sz_height size) in
      mkSize (sz_width size) (sz_height max)
    else size in
  let size :=
    if num_gt (sz_width size) (sz_width max) then
      let size := mkSize (sz_width size)
                         (num_div (num_mul (sz_height size) (sz_width max))
                                  (sz_width size)) in
      mkSize (sz_width max) (sz_height size)
    else size in
  let fontSizeRatio := num_div (num_of_Z 16) imgFontSize in
  {| img_css := mkSize (num_mul (sz_width size) fontSizeRatio)
                       (num_mul (sz_height size) fontSizeRatio);
     dialog_size := size |}.

(** ** Public methods *)

Definition pause (st : State) : bool := p_pause (parameters st).

Definition isButton (st : State) : bool :=
  bool_decide (p_displayAsButton (parameters st) = None)
  || default false (p_displayAsButton (parameters st))
  || String.eqb (library st) "H5P.Nil".

(** [remove(updateSize)]; the argument is taken by its truthiness. *)
Definition remove (br : Browser) (updateSize : bool) : M unit :=
  let! it := get interaction in
  match it with
  | Some h =>
      let! lib := get library in
      when (updateSize && String.eqb lib "H5P.DragQuestion")
        (let! p := get parameters in
         let size := a_question_size (p_action p) in
         let fontSize := css_fontSize br h in
         let! button := get isButton in
         if button then
           (* Update element size with drag question parameters *)
           modify (with_parameters
             (set_size (VNumber (Dbl.div (sz_width size) fontSize))
                       (VNumber (Dbl.div (sz_height size) fontSize)) p))
         else
           (* Update drag question parameters with size set on element *)
           modify (with_parameters
             (set_question_size
                (mkSize
                   (Num.round (Dbl.mul (to_number (p_width p)) fontSize))
                   (Num.round (Dbl.mul (to_number (p_height p)) fontSize)))
                p))) >>
      update_node node_remove h >>
      modify (with_interaction None)
  | None => ret tt
  end.

(** [toggle(second)]: the handle of a newly made element, or nothing. *)
Definition toggle (br : Browser) (second : value) : M (option nat) :=
  let! p := get parameters in
  if js_lt second (p_duration_from p) || js_gt second (p_duration_to p) then
    let! it := get interaction in
    when (bool_decide (it ≠ None))
      (* Remove interaction from display *)
      (remove br false) >>
    ret None
  else
    let! it := get interaction in
    if bool_decide (it ≠ None) then
      ret None (* Interaction already on display *)
    else
      let! button := get isButton in
      (if button then createButton br else createPoster) >>
      get interaction.

Definition positionLabel (br : Browser) (width : value) : M unit :=
  let! button := get isButton in
  let! lb := get label in
  match negb button, lb with
  | true, _ | _, None => ret tt
  | false, Some l =>
      update_node (node_removeClass "h5p-left-label") l >>
      let! it := get interaction in
      match it with
      | None => throw TypeError
      | Some h =>
          when (Num.gt
                  (Dbl.add (Dbl.add (Num.parseInt (css_left br h))
                                    (position_left br l))
                           (outerWidth br l))
                  (to_number width))
            (update_node (node_addClass "h5p-left-label") l)
      end
  end.

Definition setPosition (x y : value) : M unit :=
  let! p := get parameters in
  modify (with_parameters (set_position x y p)).

Definition setSize (br : Browser) (width height : value) : M unit :=
  let! p := get parameters in
  modify (with_parameters (set_size width height p)) >>
  let! lib := get library in
  when (String.eqb lib "H5P.DragQuestion")
    (* Re-create element to set new size *)
    (remove br true >>
     let! p' := get parameters in
     let! _r := toggle br (p_from p') in
     ret tt) >>
  trigger_resize.

(** ** The next tick: every pending [setTimeout(..., 0)] callback runs once,
    in order; a callback that throws does not stop the following ones. *)

Definition run_task (t : Task) : M unit :=
  match t with
  | TransitionIn =>
      let! it := get interaction in
      match it with
      | None => throw TypeError
      | Some h => update_node (node_removeClass "h5p-hidden") h
      end
  | ResizeInstance => trigger_resize
  end.

Definition tick (st : State) : State :=
  foldl (fun s t => final_state (run_task t s)) (with_timers [] st) (timers st).

(** ** Notions the properties are stated with *)

Local Open Scope list_scope.

(** A visual element is a node carrying the [h5p-interaction] class: the
    button of [createButton] or the poster of [createPoster]. *)
Definition is_visual (n : Node) : bool :=
  bool_decide ("h5p-interaction" ∈ n_class n).

(** How many visual elements have been made so far. *)
Definition visual_count (st : State) : nat :=
  length (filter (fun n => is_visual n = true) (dom st)).

(** [n] calls of [toggle] in a row with the same argument. *)
Fixpoint repeat_toggle (br : Browser) (second : value) (n : nat) (st : State)
  : State :=
  match n with
  | O => st
  | S n' => repeat_toggle br second n' (final_state (toggle br second st))
  end.

(** The window test of [toggle]: neither comparison holds. *)
Definition window_test (second : value) (st : State) : bool :=
  negb (js_lt second (p_duration_from (parameters st))
        || js_gt second (p_duration_to (parameters st))).

(** The three steps of the image fitting, named after the specification:
    pixels to em at the 16px baseline, fit to the height, fit to the
    width. *)
Definition to_em {N} `{Arith N} (size : Size N) : Size N :=
  mkSize (num_div (sz_width size) (num_of_Z 16))
         (num_div (sz_height size) (num_of_Z 16)).

Definition fit_height {N} `{Arith N} (max size : Size N) : Size N :=
  if num_gt (sz_height size) (sz_height max) then
    mkSize (num_div (num_mul (sz_width size) (sz_height max)) (sz_height size))
           (sz_height max)
  else size.

Definition fit_width {N} `{Arith N} (max size : Size N) : Size N :=
  if num_gt (sz_width size) (sz_width max) then
    mkSize (sz_width max)
           (num_div (num_mul (sz_height size) (sz_width max)) (sz_width size))
  else size.

(** What no method of the interaction changes: the constants of the closure
    and the parameters it only reads. *)
Record frame (st st' : State) : Prop := mkFrame {
  fr_library : library st' = library st;
  fr_classes : classes st' = classes st;
  fr_displayAsButton :
    p_displayAsButton (parameters st') = p_displayAsButton (parameters st);
  fr_from : p_duration_from (parameters st') = p_duration_from (parameters st);
  fr_to : p_duration_to (parameters st') = p_duration_to (parameters st);
  fr_label : p_label (parameters st') = p_label (parameters st)
}.

(** The handles of a closure are in order: [$interaction], when set, is a
    visual element that has not been removed, and the only such one; [$label]
    and [instance] point to something that was made. *)
Record well_formed (st : State) : Prop := mkWellFormed {
  wf_interaction : forall h, interaction st = Some h ->
    exists n, dom st !! h = Some n
              /\ is_visual n = true /\ n_removed n = false;
  wf_single : forall k n, dom st !! k = Some n ->
    is_visual n = true -> n_removed n = false -> interaction st = Some k;
  wf_label : forall l, label st = Some l -> is_Some (dom st !! l);
  wf_instance : forall i, instance st = Some i ->
    (i < length (runnables st))%nat
}.

(** Some visual element is in place: made and not removed. *)
Definition element_exists (st : State) : Prop :=
  exists k n, dom st !! k = Some n
              /\ is_visual n = true /\ n_removed n = false.

(** What the host can do with an interaction. *)
Inductive call : Type :=
| CallToggle (second : value)
| CallRemove (updateSize : bool)
| CallPositionLabel (width : value)
| CallSetPosition (x y : value)
| CallSetSize (width height : value)
| NextTick.

Definition perform (br : Browser) (c : call) (st : State) : State :=
  match c with
  | CallToggle s => final_state (toggle br s st)
  | CallRemove u => final_state (remove br u st)
  | CallPositionLabel w => final_state (positionLabel br w st)
  | CallSetPosition x y => final_state (setPosition x y st)
  | CallSetSize w h => final_state (setSize br w h st)
  | NextTick => tick st
  end.

(** The states an interaction can be in: those that calls lead to from a
    newly constructed one. *)
Inductive reachable : State -> Prop :=
| reach_new p lbl : reachable (Interaction p lbl)
| reach_call st br c : reachable st -> reachable (perform br c st).

(** ** Concrete interactions used in the examples below *)

Module Sample.

(** A browser with a 16px font that lays the element out at 100px from
    the left, with a label 20px wide, 5px to the right of its parent. *)
Definition browser : Browser :=
  {| html_text := fun s => s;
     css_left := fun _ => Fin 100;
     css_fontSize := fun _ => Fin 16;
     position_left := fun _ => Fin 5;
     outerWidth := fun _ => Fin 20 |}.

Definition sec (z : Z) : value := VNumber (Num.of_Z z).

(** Shown from second 5 to second 10, at (50%, 50%). *)
Definition params (lib : string) (displayAsButton : option bool)
    (lbl : option string) : Params :=
  {| p_action := mkAction lib None (mkSize (Fin 320) (Fin 160));
     p_x := sec 50; p_y := sec 50;
     p_width := VUndefined; p_height := VUndefined;
     p_duration_from := sec 5; p_duration_to := sec 10;
     p_displayAsButton := displayAsButton;
     p_label := lbl; p_pause := false; p_className := None |}.

(** A text interaction shown as a labelled button. *)
Definition button : State :=
  Interaction (params "H5P.Text 1.1" None (Some "Read me")) "Interaction".

(** The same content shown as a poster. *)
Definition poster : State :=
  Interaction (params "H5P.Text 1.1" (Some false) None) "Interaction".

(** A drag question shown as a poster. *)
Definition drag_poster : State :=
  Interaction (params "H5P.DragQuestion 1.0" (Some false) None) "Interaction".

(** Each of them once the video has reached second 7. *)
Definition button_shown : State :=
  final_state (toggle browser (sec 7) button).
Definition poster_shown : State :=
  final_state (toggle browser (sec 7) poster).
Definition drag_poster_shown : State :=
  final_state (toggle browser (sec 7) drag_poster).

End Sample.

(** ** The rest of the file: the dialog, the seek bar, the host's view *)

(** [action.params.file] of an image: its stored natural size, if any. *)
Record ImageFile : Type := mkImageFile {
  file_width : value;
  file_height : value
}.

(** What the dialog and the image inside it report. *)
Record DialogHost : Type := mkDialogHost {
  getMaxSize : option nat -> Size number;  (* dialog.getMaxSize($interaction), em *)
  img_fontSize : number         (* Number($img.css('fontSize').replace('px','')) *)
}.

(** What [openDialog] and its callbacks ask of the host, in order. *)
Inductive HostEffect : Type :=
| DialogOpen (content : nat)                   (* dialog.open($dialogContent) *)
| DialogPosition (anchor : option nat) (size : option (Size number))
                                               (* dialog.position($interaction[, size]) *)
| ImgCss (size : Size number)                  (* $img.css({width, height}), em *)
| OnImgLoad (max : Size number)                (* $img.load(function ...) *)
| OnResize (inst : nat)                        (* instance.$.on('resize', ...) *)
| LaterResize (inst : nat)      (* setTimeout(instance.$.trigger('resize'), 0) *)
| LaterScroll (height : number). (* setTimeout(dialog.scroll(height, 300), 500) *)

(** Code that talks to the host: next to the outcome, the calls made to the
    host so far, in order.  They stay made when the code throws. *)
Definition Hosted (A : Type) : Type := State -> list HostEffect * outcome A.

Definition hret {A} (a : A) : Hosted A := fun st => ([], Ok a st).

Definition hbind {A B} (m : Hosted A) (k : A -> Hosted B) : Hosted B :=
  fun st =>
    match m st with
    | (made, Ok a st') => let '(more, o) := k a st' in (made ++ more, o)
    | (made, Throw e st') => (made, Throw e st')
    end.

Definition lift {A} (m : M A) : Hosted A := fun st => ([], m st).
Definition tell (e : HostEffect) : Hosted unit := fun st => ([e], Ok tt st).

Notation "'let*' x ':=' m 'in' k" := (hbind m (fun x => k))
  (at level 10, x name, m at level 100, k at level 200).
Notation "m '>>>' k" := (hbind m (fun _ => k))
  (at level 65, right associativity).

(** [resizeImage] with its two effects: the CSS size set on the image and
    the dialog positioned at [$interaction] with the fitted size.  The
    arithmetic is that of doubles. *)
Definition resizeImage_effects (host : DialogHost) (max size : Size number)
  : Hosted unit :=
  let fit := @resizeImage number double_arith (img_fontSize host) max size in
  tell (ImgCss (img_css fit)) >>>
  let* anchor := lift (get interaction) in
  tell (DialogPosition anchor (Some (dialog_size fit))).

(** The node [openDialog] makes for the dialog content. *)
Definition dialog_content : Node :=
  {| n_tag := "div";
     n_class := ["h5p-dialog-interaction"];
     n_css := [];
     n_html := None; n_parent := None; n_removed := false |}.

(** [openDialog()].  The runnable it makes is held in a variable of its own,
    not in the [instance] of the closure.  [file] is [action.params.file],
    which the code reads for an image only; when the object is absent,
    reading its [width] throws. *)
Definition openDialog (host : DialogHost) (file : option ImageFile)
  : Hosted unit :=
  (* Create wrapper for dialog content *)
  let* dialogContent := lift (create_node dialog_content) in
  (* Add new instance to dialog and open *)
  let* inst := lift (newRunnable dialogContent) in
  tell (DialogOpen dialogContent) >>>
  let* lib := lift (get library) in
  (if String.eqb lib "H5P.Image" then
     (* Special case for fitting images *)
     let* anchor := lift (get interaction) in
     let max := getMaxSize host anchor in
     match file with
     | None => lift (throw TypeError)
     | Some file =>
         if truthy (file_width file) && truthy (file_height file) then
           (* Use the image size info that is stored *)
           resizeImage_effects host max
             (mkSize (to_number (file_width file))
                     (to_number (file_height file)))
         else
           (* Wait for image to load *)
           tell (OnImgLoad max) >>>
           let* anchor := lift (get interaction) in
           tell (DialogPosition anchor None)
     end
   else if negb (String.eqb lib "H5P.Summary" || String.eqb lib "H5P.Blanks")
   then
     (* Only Summary and Blanks uses the dialog that covers the entire video *)
     let* anchor := lift (get interaction) in
     tell (DialogPosition anchor None)
   else hret tt) >>>
  (if String.eqb lib "H5P.Summary" then tell (OnResize inst) else hret tt) >>>
  tell (LaterResize inst).

(** The state [openDialog] leaves: one more node, one more runnable. *)
Definition opened (st : State) : State :=
  with_runnables (runnables st ++ [length (dom st)])
    (with_dom (dom st ++ [dialog_content]) st).

(** The handler [openDialog] gives to [$img.load]: [natural] is the loaded
    image's [width] and [height], [visible] is [$img.is(':visible')]. *)
Definition onImgLoad (host : DialogHost) (max : Size number) (visible : bool)
    (natural : Size number) : Hosted unit :=
  if visible then resizeImage_effects host max natural else hret tt.

(** The handler [openDialog] gives to a summary's [resize]: [height] is
    [$dialogContent.height()]; the result carries the new [lastHeight]. *)
Definition onSummaryResize (lastHeight height : number)
  : list HostEffect * number :=
  ((if Num.gt lastHeight (Dbl.add height (Num.of_Z 10))
       || Num.lt lastHeight (Dbl.sub height (Num.of_Z 10))
    then [LaterScroll height] else []),
   height).

(** A run of [resize] events on an open summary, [lastHeight] starting at 0
    as in [openDialog]; the heights measured at each event are given. *)
Fixpoint summary_resizes (lastHeight : number) (heights : list number)
  : list HostEffect :=
  match heights with
  | [] => []
  | height :: rest =>
      let '(effects, lastHeight') := onSummaryResize lastHeight height in
      effects ++ summary_resizes lastHeight' rest
  end.

(** The [click] handler of the button; [dialogDisabled] is
    [self.dialogDisabled], a flag the host may set on the interaction. *)
Definition click (host : DialogHost) (file : option ImageFile)
    (dialogDisabled : bool) : Hosted unit :=
  let* lib := lift (get library) in
  if negb dialogDisabled && negb (String.eqb lib "H5P.Nil") then
    openDialog host file
  else hret tt.

(** The dot [addDot] appends to the container. *)
Record Dot : Type := mkDot {
  dot_class : list string;
  dot_title : string;
  dot_left : number              (* css left, in percent *)
}.

(** [addDot($container)]: the dot appended, if any. *)
Definition addDot (oneSecondInPercentage : value) (st : State) : option Dot :=
  if String.eqb (library st) "H5P.Nil" then
    None (* Skip "sub titles" *)
  else
    Some {| dot_class := ["h5p-seekbar-interaction"; classes st];
            dot_title := title st;
            dot_left := Dbl.mul (to_number (p_duration_from (parameters st)))
                                (to_number oneSecondInPercentage) |}.

(** The states an interaction can be in when its button may also be
    clicked. *)
Inductive in_use : State -> Prop :=
| use_new p lbl : in_use (Interaction p lbl)
| use_call st br c : in_use st -> in_use (perform br c st)
| use_click st host file dialogDisabled :
    in_use st ->
    in_use (final_state (snd (click host file dialogDisabled st))).

#[export] Instance Task_eq_dec : EqDecision Task.
Proof. solve_decision. Defined.

(** How many times [t] is pending. *)
Definition pending (t : Task) (st : State) : nat :=
  length (filter (fun t' => t' = t) (timers st)).

(** The element [createButton] makes in a given state, and the one
    [createPoster] makes. *)
Definition button_of (st : State) : Node :=
  {| n_tag := "div";
     n_class := ["h5p-interaction"; classes st; "h5p-hidden"];
     n_css := [("left", (p_x (parameters st), "%"));
               ("top", (p_y (parameters st), "%"))];
     n_html := None; n_parent := None; n_removed := false |}.

Definition poster_of (st : State) : Node :=
  {| n_tag := "div";
     n_class := ["h5p-interaction"; "h5p-poster"; classes st];
     n_css := [("left", (p_x (parameters st), "%"));
               ("top", (p_y (parameters st), "%"));
               ("width", (or_ten (p_width (parameters st)), "em"));
               ("height", (or_ten (p_height (parameters st)), "em"))];
     n_html := None; n_parent := None; n_removed := false |}.

(** Whether a character occurs in a string. *)
Fixpoint has_char (c : ascii) (s : string) : bool :=
  match s with
  | EmptyString => false
  | String c' rest => Ascii.eqb c' c || has_char c rest
  end.

(** Whether an effect is a call of [dialog.position]. *)
Definition is_position (e : HostEffect) : bool :=
  match e with
  | DialogPosition _ _ => true
  | _ => false
  end.

(** Heights that never move by more than 10 from one to the next,
    starting from [last]. *)
Fixpoint small_steps (last : Q) (heights : list Q) : Prop :=
  match heights with
  | [] => True
  | height :: rest =>
      (- (10) <= height - last /\ height - last <= 10)%Q
      /\ small_steps height rest
  end.

(** ** Further concrete interactions *)

Module Scene.

(** A drag question shown as a button, before and at second 7. *)
Definition drag_button : State :=
  Interaction (Sample.params "H5P.DragQuestion 1.0" None None) "Interaction".
Definition drag_button_shown : State :=
  final_state (toggle Sample.browser (Sample.sec 7) drag_button).

(** The drag question poster of [Sample] after it was given 12x8 em. *)
Definition drag_poster_resized : State :=
  final_state (setSize Sample.browser (Sample.sec 12) (Sample.sec 8)
                 Sample.drag_poster_shown).

(** An image behind a button, at second 7. *)
Definition image_shown : State :=
  final_state (toggle Sample.browser (Sample.sec 7)
    (Interaction (Sample.params "H5P.Image 1.0" None None) "Interaction")).

(** An interaction whose window ends before it starts. *)
Definition backwards : State :=
  Interaction
    (mkParams (mkAction "H5P.Text 1.1" None (mkSize (Fin 320) (Fin 160)))
       (Sample.sec 50) (Sample.sec 50) VUndefined VUndefined
       (Sample.sec 10) (Sample.sec 5) None None false None)
    "Interaction".

(** A subtitle: the sentinel content type. *)
Definition subtitle : State :=
  Interaction (Sample.params "H5P.Nil 1.0" None None) "Interaction".

(** A dialog with room for 40x30 em around an image at the 16px baseline. *)
Definition host : DialogHost :=
  {| getMaxSize := fun _ => mkSize (Fin 40) (Fin 30);
     img_fontSize := Fin 16 |}.

(** A browser with a 15px font that reports the element at 100.9px from
    the left. *)
Definition browser15 : Browser :=
  {| html_text := fun s => s;
     css_left := fun _ => Dbl.of_Q (1009 # 10);
     css_fontSize := fun _ => Fin 15;
     position_left := fun _ => Fin 5;
     outerWidth := fun _ => Fin 20 |}.

(** The drag question poster of [Sample] after it was given 0.3 x 8 em
    where the font is 15px. *)
Definition drag_poster_thin : State :=
  final_state (setSize browser15 (VNumber (Dbl.of_Q (3 # 10))) (Sample.sec 8)
                 Sample.drag_poster_shown).

(** The button node of [Sample.button_shown]. *)
Definition button_node : Node :=
  {| n_tag := "div";
     n_class := ["h5p-interaction"; "h5p-text-interaction"; "h5p-hidden"];
     n_css := [("left", (Sample.sec 50, "%")); ("top", (Sample.sec 50, "%"))];
     n_html := None; n_parent := None; n_removed := false |}.

End Scene.

(** * Properties *)

(** ** Helper lemmas *)

Lemma Qltb_lt (a b : Q) : Qltb a b = true <-> (a < b)%Q.
Proof. unfold Qltb, Qlt. apply Z.ltb_lt. Qed.

Lemma Qltb_ge (a b : Q) : Qltb a b = false <-> (b <= a)%Q.
Proof. unfold Qltb, Qle. rewrite Z.ltb_ge. reflexivity. Qed.

Lemma lt_nan_l (b : number) : Num.lt NaN b = false.
Proof. reflexivity. Qed.

Lemma lt_nan_r (a : number) : Num.lt a NaN = false.
Proof. by destruct a. Qed.

(** ** Rounding to the nearest double *)

Section Rounding.
Local Open Scope Q_scope.


Lemma pow2_pos c : 0 < pow2 c.
Proof. apply Qpower_0_lt. reflexivity. Qed.

Lemma pow2_add a b : pow2 (a + b) == pow2 a * pow2 b.
Proof. apply Qpower_plus. intro H. discriminate H. Qed.

Lemma pow2_le a b : (a <= b)%Z -> pow2 a <= pow2 b.
Proof. intros. apply Qpower_le_compat_l; [lia | discriminate]. Qed.

Lemma pow2_int k : (0 <= k)%Z -> pow2 k == inject_Z (2 ^ k).
Proof. intros. symmetry. apply (Zpower_Qpower 2 k). assumption. Qed.

Lemma rne_int k : rne (inject_Z k) = k.
Proof.
  unfold rne. rewrite Qfloor_Z.
  destruct (Qcompare_spec (inject_Z k - inject_Z k) (1 # 2)) as [E|E|E];
    [lra | reflexivity | lra].
Qed.

Lemma rne_mono x y : x <= y -> (rne x <= rne y)%Z.
Proof.
  intros Hxy.
  pose proof (Qfloor_resp_le _ _ Hxy) as Hfg.
  pose proof (Qfloor_le x) as Hx1. pose proof (Qlt_floor x) as Hx2.
  pose proof (Qfloor_le y) as Hy1. pose proof (Qlt_floor y) as Hy2.
  rewrite inject_Z_plus in Hx2, Hy2.
  unfold rne.
  destruct (Z.eq_dec (Qfloor x) (Qfloor y)) as [E|E].
  - rewrite <- E in *.
    destruct (Qcompare_spec (x - inject_Z (Qfloor x)) (1 # 2)) as [Ex|Ex|Ex];
    destruct (Qcompare_spec (y - inject_Z (Qfloor x)) (1 # 2)) as [Ey|Ey|Ey];
    try destruct (Z.even (Qfloor x)); try lia; lra.
  - assert (Qfloor x + 1 <= Qfloor y)%Z by lia.
    destruct (x - inject_Z (Qfloor x) ?= 1 # 2);
    destruct (y - inject_Z (Qfloor y) ?= 1 # 2);
    try destruct (Z.even (Qfloor x)); try destruct (Z.even (Qfloor y)); lia.
Qed.

Lemma rne_le_int x k : x <= inject_Z k -> (rne x <= k)%Z.
Proof. intros H. rewrite <- (rne_int k). apply rne_mono, H. Qed.

Lemma rne_ge_int x k : inject_Z k <= x -> (k <= rne x)%Z.
Proof. intros H. rewrite <- (rne_int k). apply rne_mono, H. Qed.

Lemma ilog2_spec q : 0 < q -> pow2 (ilog2 q) <= q /\ q < pow2 (ilog2 q + 1).
Proof.
  intros Hq. destruct q as [n d]. 
  assert (Hn : (0 < n)%Z) by (unfold Qlt in Hq; simpl in Hq; lia).
  unfold ilog2. cbn [Qnum Qden].
  pose proof (Z.log2_spec n Hn) as [Ha1 Ha2].
  pose proof (Z.log2_spec (Zpos d) eq_refl) as [Hb1 Hb2].
  pose proof (Z.log2_nonneg n) as Ha0. pose proof (Z.log2_nonneg (Zpos d)) as Hb0.
  set (a := Z.log2 n) in *. set (b := Z.log2 (Zpos d)) in *.
  assert (Hqd : (n # d) * inject_Z (Zpos d) == inject_Z n).
  { rewrite Qmake_Qdiv. field. discriminate. }
  rewrite Zle_Qle in Ha1, Hb1. rewrite Zlt_Qlt in Ha2, Hb2.
  rewrite <- !pow2_int in Ha1, Ha2, Hb1, Hb2 by lia.
  pose proof (pow2_pos b) as PB. pose proof (pow2_pos (a - b + 1)) as PX.
  pose proof (pow2_pos (a - b - 1)) as PY. pose proof (pow2_pos (a - b)) as PL.
  assert (E1 : pow2 (a - b + 1) * pow2 b == pow2 (Z.succ a)).
  { rewrite <- pow2_add. replace (a - b + 1 + b)%Z with (Z.succ a) by lia. reflexivity. }
  assert (E2 : pow2 (a - b - 1) * pow2 (Z.succ b) == pow2 a).
  { rewrite <- pow2_add. replace (a - b - 1 + Z.succ b)%Z with a by lia. reflexivity. }
  assert (U : (n # d) < pow2 (a - b + 1)).
  { destruct (Qlt_le_dec (n # d) (pow2 (a - b + 1))) as [L|L]; [exact L|exfalso].
    assert (pow2 (a - b + 1) * pow2 b <= (n # d) * inject_Z (Zpos d)) by nra.
    lra. }
  assert (L : pow2 (a - b - 1) < (n # d)).
  { destruct (Qlt_le_dec (pow2 (a - b - 1)) (n # d)) as [L|L]; [exact L|exfalso].
    assert ((n # d) * inject_Z (Zpos d) < pow2 (a - b - 1) * pow2 (Z.succ b)) by nra.
    lra. }
  destruct (Qle_bool (pow2 (a - b)) (n # d)) eqn:T.
  - apply Qle_bool_iff in T. split; assumption.
  - assert (~ pow2 (a - b) <= n # d) as T'.
    { intro C. apply Qle_bool_iff in C. congruence. }
    replace (a - b - 1 + 1)%Z with (a - b)%Z by lia. split; lra.
Qed.

Lemma ilog2_mono q1 q2 : 0 < q1 -> q1 <= q2 -> (ilog2 q1 <= ilog2 q2)%Z.
Proof.
  intros H1 H12.
  destruct (ilog2_spec q1 H1) as [A1 B1].
  destruct (ilog2_spec q2) as [A2 B2]; [lra|].
  destruct (Z_le_gt_dec (ilog2 q1) (ilog2 q2)) as [L|G]; [exact L|exfalso].
  pose proof (pow2_le (ilog2 q2 + 1) (ilog2 q1) ltac:(lia)). lra.
Qed.

Lemma quantum_mono q1 q2 : 0 < q1 -> q1 <= q2 -> (quantum q1 <= quantum q2)%Z.
Proof.
  intros H1 H2. pose proof (ilog2_mono q1 q2 H1 H2). unfold quantum. lia.
Qed.

Lemma round_pos_nonneg q r : 0 < q -> round_pos q = Some r -> 0 <= r.
Proof.
  unfold round_pos. intros Hq.
  destruct (_ <? _)%Z; [|discriminate]. intros E.
  pose proof (pow2_pos (quantum q)) as P.
  assert (0 <= rne (q / pow2 (quantum q)))%Z as N.
  { apply rne_ge_int. apply Qle_shift_div_l; [exact P|]. change (inject_Z 0) with 0. lra. }
  rewrite Zle_Qle in N.
  set (x := inject_Z _ * _) in E.
  assert (Qred x = r) as <- by congruence.
  rewrite Qred_correct. subst x. apply Qmult_le_0_compat; [exact N | apply Qlt_le_weak, P].
Qed.

Lemma round_pos_mono q1 q2 : 0 < q1 -> q1 <= q2 ->
  match round_pos q1, round_pos q2 with
  | Some r1, Some r2 => r1 <= r2
  | None, Some _ => False
  | _, None => True
  end.
Proof.
  intros H1 H12. assert (H2 : 0 < q2) by lra.
  pose proof (quantum_mono q1 q2 H1 H12) as Hc.
  destruct (ilog2_spec q1 H1) as [A1 B1]. destruct (ilog2_spec q2 H2) as [A2 B2].
  unfold round_pos.
  pose proof (pow2_pos (quantum q1)) as P1. pose proof (pow2_pos (quantum q2)) as P2.
  set (n1 := rne (q1 / pow2 (quantum q1))). set (n2 := rne (q2 / pow2 (quantum q2))).
  destruct (Z.eq_dec (quantum q1) (quantum q2)) as [E|E].
  - assert (n1 <= n2)%Z as N.
    { subst n1 n2. rewrite <- E. apply rne_mono.
      apply Qle_shift_div_l; [exact P1|].
      unfold Qdiv. rewrite <- Qmult_assoc, (Qmult_comm (/ _)), Qmult_inv_r; lra. }
    rewrite <- E.
    destruct (n1 <? _)%Z eqn:T1; destruct (n2 <? _)%Z eqn:T2; trivial.
    + rewrite !Qred_correct. rewrite Zle_Qle in N. nra.
    + apply Z.ltb_ge in T1. apply Z.ltb_lt in T2. lia.
  - assert (Hlt : (quantum q1 < quantum q2)%Z) by lia.
    assert (Hq2 : quantum q2 = (ilog2 q2 - 52)%Z) by (unfold quantum in *; lia).
    assert (He : (ilog2 q1 + 1 <= ilog2 q2)%Z) by (unfold quantum in *; lia).
    set (e2 := ilog2 q2) in *. set (c1 := quantum q1) in *. set (c2 := quantum q2) in *.
    assert (K0 : (0 <= e2 - c1)%Z) by lia.
    assert (U : (n1 <= 2 ^ (e2 - c1))%Z).
    { apply rne_le_int. rewrite <- pow2_int by exact K0.
      apply Qle_shift_div_r; [exact P1|]. rewrite <- pow2_add.
      replace (e2 - c1 + c1)%Z with e2 by lia.
      pose proof (pow2_le _ _ He). lra. }
    assert (L : (2 ^ 52 <= n2)%Z).
    { apply rne_ge_int. rewrite <- pow2_int by lia.
      apply Qle_shift_div_l; [exact P2|]. rewrite <- pow2_add.
      replace (52 + c2)%Z with e2 by lia. exact A2. }
    assert (V : inject_Z n1 * pow2 c1 <= inject_Z n2 * pow2 c2).
    { rewrite Zle_Qle in U, L. rewrite <- pow2_int in U, L by lia.
      assert (pow2 (e2 - c1) * pow2 c1 == pow2 52 * pow2 c2) as EE.
      { rewrite <- !pow2_add. replace (e2 - c1 + c1)%Z with (52 + c2)%Z by lia.
        reflexivity. }
      nra. }
    destruct (n1 <? _)%Z eqn:T1; destruct (n2 <? _)%Z eqn:T2; trivial.
    + rewrite !Qred_correct. exact V.
    + apply Z.ltb_ge in T1. apply Z.ltb_lt in T2.
      assert (52 < 1024 - c2)%Z.
      { destruct (Z_lt_le_dec 52 (1024 - c2)) as [G|G]; [exact G|].
        pose proof (Z.pow_le_mono_r 2 (1024 - c2) 52 ltac:(lia) G). lia. }
      assert (2 ^ (e2 - c1) < 2 ^ (1024 - c1))%Z
        by (apply Z.pow_lt_mono_r; lia).
      lia.
Qed.

Lemma round64_fin_or_inf q : round64 q <> NaN.
Proof.
  unfold round64. destruct (Qnum q); [discriminate| |];
    destruct (round_pos _); discriminate.
Qed.

(** Rounding is monotone. *)
Lemma round64_mono q1 q2 : q1 <= q2 -> Num.lt (round64 q2) (round64 q1) = false.
Proof.
  intros H. unfold round64.
  destruct (Qnum q1) as [|p1|p1] eqn:E1; destruct (Qnum q2) as [|p2|p2] eqn:E2.
  all: try (exfalso; unfold Qle in H; rewrite E1, E2 in H; lia).
  - reflexivity.
  - destruct (round_pos q2) as [r2|] eqn:R2; [|reflexivity].
    cbn [Num.lt]; apply Qltb_ge. apply (round_pos_nonneg q2); [|exact R2].
    unfold Qlt. rewrite E2. simpl. lia.
  - assert (0 < q1) as P1 by (unfold Qlt; rewrite E1; simpl; lia).
    pose proof (round_pos_mono q1 q2 P1 H) as M.
    destruct (round_pos q1), (round_pos q2); simpl; try reflexivity;
      [cbn [Num.lt]; apply Qltb_ge; exact M | contradiction].
  - assert (0 < - q1) as P1 by (unfold Qlt, Qopp; rewrite E1; simpl; lia).
    destruct (round_pos (- q1)) as [r1|] eqn:R1; [|reflexivity].
    cbn [Num.lt]; apply Qltb_ge. rewrite Qred_correct.
    pose proof (round_pos_nonneg _ _ P1 R1). lra.
  - assert (0 < - q1) as P1 by (unfold Qlt, Qopp; rewrite E1; simpl; lia).
    destruct (round_pos (- q1)) as [r1|] eqn:R1;
      destruct (round_pos q2) as [r2|] eqn:R2; try reflexivity.
    cbn [Num.lt]; apply Qltb_ge. rewrite Qred_correct.
    pose proof (round_pos_nonneg _ _ P1 R1).
    assert (0 < q2) as P2 by (unfold Qlt; rewrite E2; simpl; lia).
    pose proof (round_pos_nonneg _ _ P2 R2). lra.
  - assert (0 < - q2) as P2 by (unfold Qlt, Qopp; rewrite E2; simpl; lia).
    assert (- q2 <= - q1) as H' by lra.
    pose proof (round_pos_mono _ _ P2 H') as M.
    destruct (round_pos (- q1)), (round_pos (- q2)); cbn [Num.lt]; try reflexivity;
      [cbn [Num.lt]; apply Qltb_ge; rewrite !Qred_correct; lra | contradiction].
Qed.

Lemma rne_comp x y : x == y -> rne x = rne y.
Proof.
  intros E. apply Z.le_antisymm; apply rne_mono; lra.
Qed.

(** Integers below 2^53 in size are doubles. *)
Lemma round_pos_int z : (0 < z < 2 ^ 53)%Z ->
  exists r, round_pos (inject_Z z) = Some r /\ r == inject_Z z.
Proof.
  intros [Z0 Z1].
  assert (Hq : 0 < inject_Z z) by (rewrite Zlt_Qlt in Z0; exact Z0).
  destruct (ilog2_spec _ Hq) as [A B].
  set (e := ilog2 (inject_Z z)) in *.
  assert (e <= 52)%Z as E1.
  { destruct (Z_le_gt_dec e 52) as [L|G]; [exact L|exfalso].
    pose proof (pow2_le 53 e ltac:(lia)) as P. rewrite (pow2_int 53) in P by lia.
    rewrite Zlt_Qlt in Z1. lra. }
  assert (0 <= e)%Z as E0.
  { destruct (Z_le_gt_dec 0 e) as [L|G]; [exact L|exfalso].
    pose proof (pow2_le (e + 1) 0 ltac:(lia)) as P.
    assert (1 <= z)%Z as Z2 by lia. rewrite Zle_Qle in Z2.
    change (pow2 0) with 1 in P. change (inject_Z 1) with 1 in Z2. lra. }
  unfold round_pos, quantum. fold e.
  replace (Z.max (e - 52) (-1074)) with (e - 52)%Z by lia.
  set (c := (e - 52)%Z).
  assert (PC : pow2 c * pow2 (- c) == 1).
  { rewrite <- pow2_add. replace (c + - c)%Z with 0%Z by lia. reflexivity. }
  pose proof (pow2_pos c) as P1.
  assert (N : rne (inject_Z z / pow2 c) = (z * 2 ^ (- c))%Z).
  { rewrite <- (rne_int (z * 2 ^ (- c))). apply rne_comp.
    rewrite inject_Z_mult, <- pow2_int by lia.
    transitivity (inject_Z z * (pow2 c * pow2 (- c)) / pow2 c);
      [rewrite PC|]; field; lra. }
  rewrite N.
  assert (z * 2 ^ (- c) < 2 ^ (1024 - c))%Z as T.
  { apply Z.lt_le_trans with (2 ^ 53 * 2 ^ (- c))%Z.
    - apply Z.mul_lt_mono_pos_r; [apply Z.pow_pos_nonneg; lia | exact Z1].
    - rewrite <- Z.pow_add_r by lia. apply Z.pow_le_mono_r; lia. }
  apply Z.ltb_lt in T. rewrite T.
  eexists. split; [reflexivity|].
  rewrite Qred_correct, inject_Z_mult, <- pow2_int by lia.
  rewrite <- Qmult_assoc, (Qmult_comm (pow2 (- c))), PC. ring.
Qed.

Lemma is_double_int z : (Z.abs z < 2 ^ 53)%Z -> is_double (inject_Z z) = true.
Proof.
  intros Hz. unfold is_double, round64.
  destruct z as [|p|p]; cbn [Qnum inject_Z].
  - reflexivity.
  - destruct (round_pos_int (Zpos p)) as (r & -> & E); [lia|].
    apply Qeq_bool_iff, E.
  - change (- inject_Z (Z.neg p)) with (inject_Z (Zpos p)).
    destruct (round_pos_int (Zpos p)) as (r & -> & E); [lia|].
    apply Qeq_bool_iff. rewrite Qred_correct, E. reflexivity.
Qed.

Lemma ilog2_comp q1 q2 : 0 < q1 -> q1 == q2 -> ilog2 q1 = ilog2 q2.
Proof. intros H E. apply Z.le_antisymm; apply ilog2_mono; lra. Qed.

Lemma round_pos_comp q1 q2 : 0 < q1 -> q1 == q2 -> round_pos q1 = round_pos q2.
Proof.
  intros H E. unfold round_pos, quantum. rewrite (ilog2_comp q1 q2 H E).
  set (c := Z.max (ilog2 q2 - 52) (-1074)).
  assert (rne (q1 / pow2 c) = rne (q2 / pow2 c)) as ->
    by (apply rne_comp; rewrite E; reflexivity).
  reflexivity.
Qed.

(** Rounding depends on the value only, not on how the fraction is
    written. *)
Lemma round64_comp q1 q2 : q1 == q2 -> round64 q1 = round64 q2.
Proof.
  intros E. unfold round64.
  destruct (Qnum q1) as [|p1|p1] eqn:E1; destruct (Qnum q2) as [|p2|p2] eqn:E2.
  all: try (exfalso; unfold Qeq in E; rewrite E1, E2 in E; lia).
  - reflexivity.
  - rewrite (round_pos_comp q1 q2); [reflexivity| |exact E].
    unfold Qlt. rewrite E1. simpl. lia.
  - rewrite (round_pos_comp (- q1) (- q2)); [reflexivity| |by rewrite E].
    unfold Qlt, Qopp. rewrite E1. simpl. lia.
Qed.

Lemma round64_canon q r : round64 q = Fin r -> Qred r = r.
Proof.
  unfold round64, round_pos.
  destruct (Qnum q).
  - by intros [= <-].
  - destruct (_ <? _)%Z; [|discriminate]. intros E.
    set (x := inject_Z _ * _) in E. assert (Qred x = r) as <- by congruence.
    apply Qred_complete, Qred_correct.
  - destruct (_ <? _)%Z; [|discriminate]. intros E.
    set (x := - Qred _) in E. assert (Qred x = r) as <- by congruence.
    apply Qred_complete, Qred_correct.
Qed.

(** A double is its own rounding. *)
Lemma is_double_exact q : is_double q = true -> round64 q = Fin (Qred q).
Proof.
  unfold is_double. destruct (round64 q) as [r| | |] eqn:R; try discriminate.
  intros E. apply Qeq_bool_iff in E. f_equal.
  rewrite <- (round64_canon q r R). by apply Qred_complete.
Qed.

End Rounding.

(** The rounding above gives what the standard library's binary64 gives:
    on quotients [a / b] of integers, and on their sum with, product by and
    quotient by a third one, down to the smallest doubles, with ties, and
    up to overflow. *)
Lemma Dbl_agrees_with_SpecFloat :
  Forall
    (fun '(a, b, c) =>
       let q := Dbl.div (Num.of_Z a) (Num.of_Z b) in
       let f := B64.div (B64.of_Z a) (B64.of_Z b) in
       q = B64.val f
       /\ Dbl.add q (Num.of_Z c) = B64.val (SFadd B64.prec B64.emax f (B64.of_Z c))
       /\ Dbl.mul q (Num.of_Z c) = B64.val (B64.mul f (B64.of_Z c))
       /\ Dbl.div q (Num.of_Z c) = B64.val (B64.div f (B64.of_Z c)))
    [(1, 10, 3); (3, 10, 15); (1, 5, 10); (320, 15, 15); (100, 37, 5);
     (1000, 16, 30); (1183, 10, 10); (-7, 3, 9); (0, 7, 2);
     (1, 2 ^ 1000, 2 ^ 74); (1, 2 ^ 1000, 2 ^ 75); (3, 2 ^ 1000, 2 ^ 75);
     (5, 2 ^ 1000, 2 ^ 75); (-3, 2 ^ 1000, 2 ^ 75);
     (2 ^ 1000, 1, 2 ^ 24); (2 ^ 1000, -1, 2 ^ 24);
     (2 ^ 53 - 1, 2 ^ 53, 2 ^ 1023)]%Z.
Proof.
  repeat (apply Forall_cons; split;
          [cbv zeta; split_and!; vm_compute; reflexivity|]).
  apply Forall_nil. done.
Qed.

(** Unfold the monadic plumbing of the primitive effects. *)
Ltac run :=
  unfold createButton, createPoster, trigger_resize, bind, get, modify, when,
    create_node, newRunnable, trigger_display, setTimeout, update_node,
    throw, ret; simpl.

Lemma frame_refl st : frame st st.
Proof. by constructor. Qed.

Lemma frame_trans a b c : frame a b -> frame b c -> frame a c.
Proof. intros [] []; constructor; congruence. Qed.

Lemma frame_isButton st st' : frame st st' -> isButton st' = isButton st.
Proof. intros [Hl _ Hd _ _ _]. unfold isButton. by rewrite Hl, Hd. Qed.

Lemma frame_window_test s st st' :
  frame st st' -> window_test s st' = window_test s st.
Proof. intros [_ _ _ Hf Ht _]. unfold window_test. by rewrite Hf, Ht. Qed.

Lemma createButton_ok br st :
  exists st', createButton br st = Ok tt st'
    /\ interaction st' = Some (length (dom st))
    /\ displayed st' = displayed st ++ [length (dom st)]
    /\ visual_count st' = S (visual_count st)
    /\ frame st st'
    /\ instance st' = instance st
    /\ resized st' = resized st
    /\ timers st' = timers st ++ [TransitionIn]
    /\ exists n, dom st' !! length (dom st) = Some n /\ is_visual n = true.
Proof.
  run.
  destruct (_ || _); simpl; eexists; (split; [reflexivity|]); simpl;
    repeat split;
    try (eexists; split;
         [rewrite <- !app_assoc; by apply list_lookup_middle | reflexivity]);
    unfold visual_count; simpl;
    rewrite ?filter_app, ?length_app; simpl; lia.
Qed.

Lemma createPoster_ok st :
  exists st', createPoster st = Ok tt st'
    /\ interaction st' = Some (length (dom st))
    /\ displayed st' = displayed st ++ [length (dom st)]
    /\ visual_count st' = S (visual_count st)
    /\ frame st st'
    /\ instance st' = Some (length (runnables st))
    /\ resized st' = resized st
    /\ timers st' = timers st ++ [ResizeInstance]
    /\ exists n, dom st' !! length (dom st) = Some n /\ is_visual n = true.
Proof.
  run. eexists; (split; [reflexivity|]); simpl;
    repeat split;
    try (eexists; split;
         [rewrite <- !app_assoc; by apply list_lookup_middle | reflexivity]);
    unfold visual_count; simpl;
    rewrite ?filter_app, ?length_app; simpl; lia.
Qed.

Lemma visual_count_alter (f : Node -> Node) (h : nat) (l : list Node) :
  (forall n, n_class (f n) = n_class n) ->
  length (filter (fun n => is_visual n = true) (alter f h l))
  = length (filter (fun n => is_visual n = true) l).
Proof.
  intros Hf.
  assert (Hv : forall n, is_visual (f n) = is_visual n)
    by (intros n; unfold is_visual; by rewrite Hf).
  revert h. induction l as [|n l IH]; intros [|h]; simpl; try reflexivity.
  - rewrite !filter_cons, Hv. by destruct (decide _).
  - rewrite !filter_cons. destruct (decide _); simpl;
      [exact (f_equal S (IH h)) | exact (IH h)].
Qed.

Lemma remove_ok br u st :
  exists st', remove br u st = Ok tt st'
    /\ interaction st' = None
    /\ displayed st' = displayed st
    /\ visual_count st' = visual_count st
    /\ frame st st'
    /\ instance st' = instance st
    /\ label st' = label st
    /\ resized st' = resized st
    /\ runnables st' = runnables st
    /\ timers st' = timers st
    /\ length (dom st') = length (dom st).
Proof.
  unfold remove. run.
  destruct (interaction st) as [h|] eqn:Hi; simpl.
  2:{ eexists; split; [reflexivity|]. repeat split; auto. }
  destruct (u && _); simpl.
  - destruct (isButton st); simpl; eexists; (split; [reflexivity|]); simpl;
      repeat split; try apply length_alter;
      unfold visual_count; simpl; by apply visual_count_alter.
  - eexists; (split; [reflexivity|]); simpl;
      repeat split; try apply length_alter;
      unfold visual_count; simpl; by apply visual_count_alter.
Qed.

Lemma window_test_finite (s f t : Q) st :
  p_duration_from (parameters st) = VNumber (Fin f) ->
  p_duration_to (parameters st) = VNumber (Fin t) ->
  window_test (VNumber (Fin s)) st = true <-> (f <= s /\ s <= t)%Q.
Proof.
  intros Hf Ht. unfold window_test, js_lt, js_gt, Num.gt.
  rewrite Hf, Ht. simpl.
  rewrite negb_true_iff, orb_false_iff, !Qltb_ge. reflexivity.
Qed.

Lemma window_test_nan s st : to_number s = NaN -> window_test s st = true.
Proof.
  intros Hs. unfold window_test, js_lt, js_gt, Num.gt.
  by rewrite Hs, lt_nan_l, lt_nan_r.
Qed.

(** Outside the window: whatever was on display is removed. *)
Lemma toggle_outside br s st :
  window_test s st = false ->
  exists st', toggle br s st = Ok None st'
    /\ interaction st' = None
    /\ displayed st' = displayed st
    /\ visual_count st' = visual_count st
    /\ frame st st'.
Proof.
  unfold window_test. rewrite negb_false_iff. intros Hw.
  unfold toggle, bind, get. rewrite Hw. unfold when, ret.
  destruct (interaction st) as [h|] eqn:Hi; simpl.
  - destruct (remove_ok br false st) as (st' & Hr & H1 & H2 & H3 & H4 & _).
    rewrite Hr. eauto 10.
  - exists st. repeat split; auto.
Qed.

(** Inside the window with an element on display: nothing happens, and
    nothing is returned. *)
Lemma toggle_inside_shown br s st h :
  window_test s st = true ->
  interaction st = Some h ->
  toggle br s st = Ok None st.
Proof.
  unfold window_test. rewrite negb_true_iff. intros Hw Hi.
  unfold toggle, bind, get. rewrite Hw, Hi. reflexivity.
Qed.

(** Inside the window with nothing on display: a button or a poster is made
    and returned. *)
Lemma toggle_inside_hidden br s st :
  window_test s st = true ->
  interaction st = None ->
  exists st', toggle br s st = Ok (Some (length (dom st))) st'
    /\ interaction st' = Some (length (dom st))
    /\ displayed st' = displayed st ++ [length (dom st)]
    /\ visual_count st' = S (visual_count st)
    /\ frame st st'
    /\ instance st' =
         (if isButton st then instance st else Some (length (runnables st)))
    /\ resized st' = resized st
    /\ timers st' =
         timers st ++ [if isButton st then TransitionIn else ResizeInstance]
    /\ exists n, dom st' !! length (dom st) = Some n /\ is_visual n = true.
Proof.
  unfold window_test. rewrite negb_true_iff. intros Hw Hi.
  unfold toggle, bind, get. rewrite Hw, Hi. simpl.
  destruct (isButton st).
  - destruct (createButton_ok br st)
      as (st' & Hc & H1 & H2 & H3 & H4 & H5 & H6 & H7 & H8).
    rewrite Hc, H1. eauto 12.
  - destruct (createPoster_ok st)
      as (st' & Hc & H1 & H2 & H3 & H4 & H5 & H6 & H7 & H8).
    rewrite Hc, H1. eauto 12.
Qed.

(** Once an element is on display, further calls inside the window leave
    the state as it is. *)
Lemma repeat_toggle_shown br s n st h :
  window_test s st = true ->
  interaction st = Some h ->
  repeat_toggle br s n st = st.
Proof.
  intros Hw Hi. induction n as [|n IH]; simpl; [reflexivity|].
  by rewrite (toggle_inside_shown br s st h Hw Hi).
Qed.

(** *** Well-formed states *)

Lemma wf_new p lbl : well_formed (Interaction p lbl).
Proof. constructor; simpl; intros; discriminate. Qed.

Lemma wf_same st st' :
  interaction st' = interaction st -> dom st' = dom st ->
  label st' = label st -> instance st' = instance st ->
  runnables st' = runnables st ->
  well_formed st -> well_formed st'.
Proof.
  intros Hi Hd Hl Hin Hr [W1 W2 W3 W4].
  constructor; rewrite ?Hi, ?Hd, ?Hl, ?Hin, ?Hr; auto.
Qed.

Lemma wf_alter f k st :
  (forall n, is_visual (f n) = is_visual n) ->
  (forall n, n_removed (f n) = n_removed n) ->
  well_formed st -> well_formed (with_dom (alter f k (dom st)) st).
Proof.
  intros Hv Hr [W1 W2 W3 W4]. constructor; simpl; auto.
  - intros h Hh. destruct (W1 h Hh) as (n & Hn & Hvis & Hrem).
    destruct (decide (k = h)) as [->|Hne].
    + exists (f n). rewrite list_lookup_alter_eq, Hn, Hv, Hr. auto.
    + exists n. rewrite list_lookup_alter_ne by done. auto.
  - intros j n Hn Hvis Hrem.
    destruct (decide (k = j)) as [->|Hne].
    + rewrite list_lookup_alter_eq in Hn.
      destruct (dom st !! j) as [m|] eqn:Hm; [|discriminate].
      injection Hn as <-. rewrite Hv in Hvis. rewrite Hr in Hrem. eauto.
    + rewrite list_lookup_alter_ne in Hn by done. eauto.
  - intros l Hl. apply lookup_lt_is_Some. rewrite length_alter.
    apply lookup_lt_is_Some. auto.
Qed.

Lemma removeClass_visual c n :
  c <> "h5p-interaction" -> is_visual (node_removeClass c n) = is_visual n.
Proof.
  intros Hc. unfold is_visual. simpl. apply bool_decide_ext.
  rewrite list_elem_of_filter. split; [tauto|]. intros H. split; [|done].
  congruence.
Qed.

Lemma addClass_visual c n :
  c <> "h5p-interaction" -> is_visual (node_addClass c n) = is_visual n.
Proof.
  intros Hc. unfold is_visual. simpl. apply bool_decide_ext.
  destruct (bool_decide (c ∈ n_class n)); [done|].
  rewrite elem_of_app, list_elem_of_singleton. split; [|tauto].
  intros [H|H]; [done|]. congruence.
Qed.

(** Appending a new element, live and visual, followed by nodes that are not
    visual, when nothing is on display. *)
Lemma wf_created st v rest lb inst runn :
  well_formed st -> interaction st = None ->
  is_visual v = true -> n_removed v = false ->
  Forall (fun n => is_visual n = false) rest ->
  (forall l, lb = Some l -> (l < length (dom st ++ v :: rest))%nat) ->
  (forall i, inst = Some i -> (i < length runn)%nat) ->
  forall st',
  interaction st' = Some (length (dom st)) ->
  dom st' = dom st ++ v :: rest ->
  label st' = lb -> instance st' = inst -> runnables st' = runn ->
  well_formed st'.
Proof.
  intros [W1 W2 W3 W4] Hnone Hv Hr Hrest Hlb Hinst st' Hi Hd Hl Hin Hru.
  constructor; rewrite ?Hi, ?Hd, ?Hl, ?Hin, ?Hru.
  - intros h [= <-]. exists v. by rewrite list_lookup_middle.
  - intros k n Hn Hvis Hrem.
    apply lookup_app_Some in Hn as [Hn|[Hge Hn]].
    + pose proof (W2 k n Hn Hvis Hrem) as Hk. congruence.
    + destruct (k - length (dom st))%nat as [|j] eqn:Hj.
      * f_equal. lia.
      * simpl in Hn. rewrite Forall_lookup in Hrest.
        rewrite (Hrest j n Hn) in Hvis. discriminate.
  - intros l Hl'. apply lookup_lt_is_Some. auto.
  - auto.
Qed.

Lemma wf_createButton br st :
  well_formed st -> interaction st = None ->
  well_formed (final_state (createButton br st)).
Proof.
  intros Hwf Hnone. pose proof (wf_label st Hwf) as Hlab.
  pose proof (wf_instance st Hwf) as Hins.
  run. destruct (_ || _); simpl.
  - eapply (wf_created st _ [_; _]); eauto; simpl;
      [ .. | by rewrite <- !app_assoc]; try done.
    + repeat constructor.
    + intros l [= <-]. rewrite !length_app. simpl. lia.
  - eapply (wf_created st _ [_]); eauto; simpl;
      [ .. | by rewrite <- !app_assoc]; try done.
    + repeat constructor.
    + intros l Hl. apply Hlab, lookup_lt_is_Some in Hl.
      rewrite length_app. simpl. lia.
Qed.

Lemma wf_createPoster st :
  well_formed st -> interaction st = None ->
  well_formed (final_state (createPoster st)).
Proof.
  intros Hwf Hnone. pose proof (wf_label st Hwf) as Hlab.
  run.
  eapply (wf_created st _ [_]); eauto; simpl;
    [ .. | by rewrite <- !app_assoc]; try done.
  - repeat constructor.
  - intros l Hl. apply Hlab, lookup_lt_is_Some in Hl.
    rewrite length_app. simpl. lia.
  - intros i [= <-]. rewrite length_app. simpl. lia.
Qed.

Lemma wf_removed st h p :
  well_formed st -> interaction st = Some h ->
  well_formed
    (with_interaction None
       (with_dom (alter node_remove h (dom st)) (with_parameters p st))).
Proof.
  intros [W1 W2 W3 W4] Hi. constructor; simpl; auto.
  - discriminate.
  - intros k n Hn Hvis Hrem. exfalso.
    destruct (decide (h = k)) as [->|Hne].
    + rewrite list_lookup_alter_eq in Hn.
      destruct (dom st !! k); [|discriminate].
      injection Hn as <-. discriminate.
    + rewrite list_lookup_alter_ne in Hn by done.
      pose proof (W2 k n Hn Hvis Hrem). congruence.
  - intros l Hl. apply lookup_lt_is_Some. rewrite length_alter.
    apply lookup_lt_is_Some. auto.
Qed.

Lemma wf_remove br u st :
  well_formed st -> well_formed (final_state (remove br u st)).
Proof.
  intros Hwf. unfold remove. run.
  destruct (interaction st) as [h|] eqn:Hi; simpl; [|done].
  destruct (u && _); simpl; [destruct (isButton st); simpl|].
  - by apply (wf_removed st h).
  - by apply (wf_removed st h).
  - by apply (wf_removed st h (parameters st)).
Qed.

Lemma wf_toggle br s st :
  well_formed st -> well_formed (final_state (toggle br s st)).
Proof.
  intros Hwf. unfold toggle, bind, get.
  destruct (_ || _); simpl.
  - destruct (interaction st) as [h|] eqn:Hi; simpl; [|done].
    pose proof (wf_remove br false st Hwf) as Hr.
    unfold ret. by destruct (remove br false st).
  - destruct (interaction st) as [h|] eqn:Hi; simpl; [done|].
    destruct (isButton st).
    + pose proof (wf_createButton br st Hwf Hi) as Hc.
      by destruct (createButton br st).
    + pose proof (wf_createPoster st Hwf Hi) as Hc.
      by destruct (createPoster st).
Qed.

Lemma wf_positionLabel br w st :
  well_formed st -> well_formed (final_state (positionLabel br w st)).
Proof.
  intros Hwf. unfold positionLabel, bind, get.
  destruct (isButton st); simpl; [|done].
  destruct (label st) as [l|]; [|done].
  run.
  assert (Hrm : well_formed
    (with_dom (alter (node_removeClass "h5p-left-label") l (dom st)) st)).
  { apply wf_alter; [|done|done].
    intros n. by apply removeClass_visual. }
  destruct (interaction st) as [h|]; simpl; [|done].
  destruct (Num.gt _ _); simpl; [|done].
  apply (wf_alter (node_addClass "h5p-left-label") l) in Hrm;
    [exact Hrm| |done].
  intros n. by apply addClass_visual.
Qed.

Lemma wf_trigger_resize st :
  well_formed st -> well_formed (final_state (trigger_resize st)).
Proof.
  intros Hwf. run. destruct (instance st); simpl; [|done].
  by apply (wf_same st).
Qed.

Lemma wf_setSize br w h st :
  well_formed st -> well_formed (final_state (setSize br w h st)).
Proof.
  intros Hwf. unfold setSize, bind, get, modify, when. simpl.
  set (st1 := with_parameters (set_size w h (parameters st)) st).
  assert (H1 : well_formed st1) by (by apply (wf_same st)).
  destruct (String.eqb _ _); simpl.
  - pose proof (wf_remove br true st1 H1) as H2.
    destruct (remove br true st1) as [[] st2|e st2]; simpl in *; [|done].
    unfold bind, get. simpl.
    pose proof (wf_toggle br VUndefined st2 H2) as H3.
    change (p_from (parameters st2)) with VUndefined.
    destruct (toggle br VUndefined st2) as [r st3|e st3]; simpl in *; [|done].
    by apply wf_trigger_resize.
  - by apply wf_trigger_resize.
Qed.

Lemma wf_run_task t st :
  well_formed st -> well_formed (final_state (run_task t st)).
Proof.
  intros Hwf. destruct t; simpl.
  - unfold bind, get. destruct (interaction st) as [h|]; simpl; [|done].
    apply wf_alter; [|done|done]. intros n. by apply removeClass_visual.
  - by apply wf_trigger_resize.
Qed.

Lemma wf_tick st : well_formed st -> well_formed (tick st).
Proof.
  intros Hwf. unfold tick.
  assert (H0 : well_formed (with_timers [] st)) by (by apply (wf_same st)).
  revert H0. generalize (with_timers [] st).
  induction (timers st) as [|t ts IH]; intros s Hs; simpl; [done|].
  apply IH. by apply wf_run_task.
Qed.

(** Every state an interaction can be in is well formed. *)
Lemma reachable_well_formed st : reachable st -> well_formed st.
Proof.
  induction 1 as [p lbl|st br c _ IH]; [apply wf_new|].
  destruct c; simpl.
  - by apply wf_toggle.
  - by apply wf_remove.
  - by apply wf_positionLabel.
  - by apply (wf_same st).
  - by apply wf_setSize.
  - by apply wf_tick.
Qed.

Lemma wf_element_exists st :
  well_formed st -> element_exists st <-> is_Some (interaction st).
Proof.
  intros [W1 W2 _ _]. split.
  - intros (k & n & Hn & Hv & Hr). rewrite (W2 k n Hn Hv Hr). eauto.
  - intros [h Hh]. destruct (W1 h Hh) as (n & Hn). by exists h, n.
Qed.

(** ** The claims *)

(** C1: for every second [s] and whatever happened before, after
    [toggle(s)] a visual element exists if and only if
    [duration.from <= s <= duration.to]; and any number of calls with the
    same in-window [s] makes at most one element. *)
Theorem toggle_visible_iff_in_window (br : Browser) (st : State) (s f t : Q) :
  p_duration_from (parameters st) = VNumber (Fin f) ->
  p_duration_to (parameters st) = VNumber (Fin t) ->
  (exists r st',
      toggle br (VNumber (Fin s)) st = Ok r st'
      (* the handle is set exactly inside the window *)
      /\ (is_Some (interaction st') <-> (f <= s /\ s <= t)%Q)
      (* and so an element is in place exactly inside the window *)
      /\ (well_formed st ->
          element_exists st' <-> (f <= s /\ s <= t)%Q))
  /\ ((f <= s /\ s <= t)%Q ->
      forall n,
        visual_count (repeat_toggle br (VNumber (Fin s)) n st)
        <= visual_count st + 1).
Proof.
  intros Hf Ht.
  pose proof (window_test_finite s f t st Hf Ht) as Hw.
  split.
  - assert (Hmain : exists r st',
               toggle br (VNumber (Fin s)) st = Ok r st'
               /\ (is_Some (interaction st') <-> (f <= s /\ s <= t)%Q)).
    { destruct (window_test (VNumber (Fin s)) st) eqn:Hin.
      - destruct (interaction st) as [h|] eqn:Hi.
        + exists None, st. split.
          * by apply toggle_inside_shown with h.
          * rewrite Hi. split; [intros _; by apply Hw | eauto].
        + destruct (toggle_inside_hidden br _ st Hin Hi)
            as (st' & Hc & H1 & _).
          exists (Some (length (dom st))), st'. split; [exact Hc|].
          rewrite H1. split; [intros _; by apply Hw | eauto].
      - destruct (toggle_outside br _ st Hin) as (st' & Hc & H1 & _).
        exists None, st'. split; [exact Hc|].
        rewrite H1. split.
        + intros [x Hx]; discriminate.
        + intros Hq. apply Hw in Hq. discriminate. }
    destruct Hmain as (r & st' & Hc & Hiff).
    exists r, st'. split; [exact Hc|]. split; [exact Hiff|].
    intros Hwf. rewrite <- Hiff. apply wf_element_exists.
    pose proof (wf_toggle br (VNumber (Fin s)) st Hwf) as Hwf'.
    by rewrite Hc in Hwf'.
  - intros Hq n. apply Hw in Hq.
    destruct n as [|n]; simpl; [lia|].
    destruct (interaction st) as [h|] eqn:Hi.
    + rewrite (toggle_inside_shown br _ st h Hq Hi). simpl.
      rewrite (repeat_toggle_shown br _ n st h Hq Hi). lia.
    + destruct (toggle_inside_hidden br _ st Hq Hi)
        as (st' & Hc & H1 & _ & H3 & H4 & _).
      rewrite Hc. simpl.
      rewrite (repeat_toggle_shown br _ n st' (length (dom st))); [lia| |done].
      by rewrite (frame_window_test _ st st').
Qed.

Lemma toggle_visible_iff_in_window_witness :
  (exists r st',
      toggle Sample.browser (Sample.sec 7) Sample.button = Ok r st'
      /\ (is_Some (interaction st') <-> (5 <= 7 /\ 7 <= 10)%Q)
      /\ (well_formed Sample.button ->
          element_exists st' <-> (5 <= 7 /\ 7 <= 10)%Q))
  /\ ((5 <= 7 /\ 7 <= 10)%Q ->
      forall n,
        visual_count (repeat_toggle Sample.browser (Sample.sec 7) n Sample.button)
        <= visual_count Sample.button + 1).
Proof.
  exact (toggle_visible_iff_in_window Sample.browser Sample.button 7 5 10
           eq_refl eq_refl).
Defined.

(** C2, as stated, fails: with the button on display at second 7, a second
    [toggle(7)] changes nothing but returns nothing either, not the handle
    of the element on display. *)
Lemma toggle_shown_returns_handle_counterexample :
  interaction Sample.button_shown = Some 0%nat
  /\ window_test (Sample.sec 7) Sample.button_shown = true
  /\ toggle Sample.browser (Sample.sec 7) Sample.button_shown
     = Ok None Sample.button_shown
  /\ toggle Sample.browser (Sample.sec 7) Sample.button_shown
     <> Ok (Some 0%nat) Sample.button_shown.
Proof.
  split; [reflexivity|]. split; [reflexivity|].
  split; [reflexivity | discriminate].
Qed.

(** C2, amended: when [second] passes the window test and a visual element
    is on display, [toggle(second)] changes nothing (the element is neither
    recreated nor duplicated) and returns nothing; only the call that makes
    the element returns its handle. *)
Theorem toggle_shown_is_noop (br : Browser) (second : value) (st : State)
    (h : nat) :
  window_test second st = true ->
  interaction st = Some h ->
  toggle br second st = Ok None st.
Proof. apply toggle_inside_shown. Qed.

Lemma toggle_shown_is_noop_witness :
  toggle Sample.browser (Sample.sec 7) Sample.button_shown
  = Ok None Sample.button_shown.
Proof.
  exact (toggle_shown_is_noop Sample.browser (Sample.sec 7)
           Sample.button_shown 0 eq_refl eq_refl).
Defined.

(** C5: [isButton()] is false exactly when [displayAsButton] is explicitly
    false and the content type is not [H5P.Nil]; so it is true whenever
    [displayAsButton] is absent, and true for [H5P.Nil] whatever
    [displayAsButton] is. *)
Theorem isButton_false_iff (st : State) :
  (isButton st = false <->
     p_displayAsButton (parameters st) = Some false
     /\ library st <> "H5P.Nil")
  /\ (p_displayAsButton (parameters st) = None -> isButton st = true)
  /\ (library st = "H5P.Nil" -> isButton st = true).
Proof.
  unfold isButton.
  destruct (p_displayAsButton (parameters st)) as [[|]|]; simpl;
    destruct (String.eqb_spec (library st) "H5P.Nil") as [He|He];
    repeat split; try done; try (intros [? ?]; done).
Qed.

Lemma isButton_false_iff_witness :
  (isButton Sample.button = false <->
     p_displayAsButton (parameters Sample.button) = Some false
     /\ library Sample.button <> "H5P.Nil")
  /\ isButton Sample.button = true.
Proof.
  destruct (isButton_false_iff Sample.button) as (Hiff & Habsent & _).
  split; [exact Hiff | exact (Habsent eq_refl)].
Defined.

(** C6: a call of [toggle] that makes a new visual element fires [display]
    exactly once before it returns, with the new element as payload; a call
    that removes the element, or leaves things as they are, fires none. *)
Theorem toggle_fires_display_once (br : Browser) (second : value)
    (st : State) :
  exists r st',
    toggle br second st = Ok r st'
    /\ if window_test second st && bool_decide (interaction st = None) then
         (* a button or poster is made *)
         exists h n,
           r = Some h /\ interaction st' = Some h
           /\ dom st !! h = None /\ dom st' !! h = Some n
           /\ is_visual n = true
           /\ visual_count st' = S (visual_count st)
           /\ displayed st' = displayed st ++ [h]
       else
         (* removal, or nothing to do *)
         r = None
         /\ visual_count st' = visual_count st
         /\ displayed st' = displayed st.
Proof.
  destruct (window_test second st) eqn:Hw; simpl.
  - destruct (interaction st) as [h|] eqn:Hi; simpl.
    + exists None, st.
      rewrite (toggle_inside_shown br second st h Hw Hi). auto.
    + destruct (toggle_inside_hidden br second st Hw Hi)
        as (st' & Hc & H1 & H2 & H3 & _ & _ & _ & _ & n & Hn & Hv).
      exists (Some (length (dom st))), st'. split; [exact Hc|].
      exists (length (dom st)), n. repeat split; auto.
      by apply lookup_ge_None_2.
  - destruct (toggle_outside br second st Hw) as (st' & Hc & _ & H2 & H3 & _).
    exists None, st'. auto.
Qed.

(** C8: [remove()] on an interaction with no visual element returns
    normally and changes nothing, with or without [updateSize]. *)
Theorem remove_without_element_is_noop (br : Browser) (updateSize : bool)
    (st : State) :
  interaction st = None ->
  remove br updateSize st = Ok tt st.
Proof. intros Hi. unfold remove, bind, get. by rewrite Hi. Qed.

Lemma remove_without_element_is_noop_witness :
  remove Sample.browser true Sample.drag_poster = Ok tt Sample.drag_poster
  /\ remove Sample.browser false Sample.drag_poster = Ok tt Sample.drag_poster.
Proof.
  split.
  - exact (remove_without_element_is_noop Sample.browser true
             Sample.drag_poster eq_refl).
  - exact (remove_without_element_is_noop Sample.browser false
             Sample.drag_poster eq_refl).
Defined.

(** *** Labels *)

Lemma lt_irrefl (a : number) : Num.lt a a = false.
Proof.
  destruct a; simpl; try reflexivity.
  apply Qltb_ge. apply Qle_refl.
Qed.

Lemma removeClass_not_in c n : c ∉ n_class (node_removeClass c n).
Proof. simpl. rewrite list_elem_of_filter. intros [Hne _]. by apply Hne. Qed.

Lemma addClass_in c n : c ∈ n_class (node_addClass c n).
Proof.
  simpl. destruct (bool_decide (c ∈ n_class n)) eqn:Hb.
  - by apply bool_decide_eq_true in Hb.
  - apply elem_of_app. right. apply list_elem_of_here.
Qed.

(** [parseInt] of a finite CSS length is the length without its fraction:
    rounded towards zero, not to the nearest integer. *)
Lemma parseInt_truncates (q : Q) :
  exists t : Z,
    Num.parseInt (Fin q) = Num.of_Z t
    /\ ((0 <= q)%Q -> (inject_Z t <= q < inject_Z t + 1)%Q)
    /\ ((q <= 0)%Q -> (inject_Z t - 1 < q <= inject_Z t)%Q).
Proof.
  destruct q as [n d]. exists (Z.quot n (Zpos d)). split; [reflexivity|].
  pose proof (Z.quot_rem' n (Zpos d)) as Hqr.
  assert (Hqd : ((n # d) * inject_Z (Zpos d) == inject_Z n)%Q).
  { rewrite Qmake_Qdiv. field. discriminate. }
  assert (Hd : (0 < inject_Z (Zpos d))%Q) by reflexivity.
  assert (Hn : (inject_Z n
                == inject_Z (Zpos d) * inject_Z (Z.quot n (Zpos d))
                   + inject_Z (Z.rem n (Zpos d)))%Q).
  { rewrite <- inject_Z_mult, <- inject_Z_plus, <- Hqr. reflexivity. }
  set (t := inject_Z (Z.quot n (Zpos d))) in *.
  set (r := inject_Z (Z.rem n (Zpos d))) in *.
  set (D := inject_Z (Zpos d)) in *. set (N := inject_Z n) in *.
  split.
  - intros Hq.
    assert (0 <= n)%Z as Hn0 by (unfold Qle in Hq; simpl in Hq; lia).
    pose proof (Z.rem_bound_pos n (Zpos d) Hn0 eq_refl) as [R1 R2].
    rewrite Zle_Qle in R1. rewrite Zlt_Qlt in R2. fold r D in R1, R2.
    change (inject_Z 0) with 0%Q in R1.
    split; nra.
  - intros Hq.
    assert (n <= 0)%Z as Hn0 by (unfold Qle in Hq; simpl in Hq; lia).
    pose proof (Z.rem_bound_pos_neg n (Zpos d) eq_refl Hn0) as [R1 R2].
    rewrite Zlt_Qlt in R1. rewrite Zle_Qle in R2.
    rewrite inject_Z_opp in R1. fold r D in R1, R2.
    change (inject_Z 0) with 0%Q in R2.
    split; nra.
Qed.

(** C7, as the claim has it, fails: with the button 100.9px from the left,
    a label 5px further and 20px wide, and a container of 125px, the
    button's left offset plus the label's offset and width is 125.9, more
    than the container width, and the label is not flagged, because the
    code adds [parseInt] of the left offset, which is 100. *)
Lemma positionLabel_flips_iff_overflow_counterexample :
  exists st',
    positionLabel Scene.browser15 (Sample.sec 125) Sample.button_shown
    = Ok tt st'
    /\ Num.gt (Dbl.add (Dbl.add (css_left Scene.browser15 0%nat)
                                (position_left Scene.browser15 2%nat))
                       (outerWidth Scene.browser15 2%nat))
              (to_number (Sample.sec 125)) = true
    /\ hasClass "h5p-left-label" 2 st' = false.
Proof.
  eexists. split; [vm_compute; reflexivity|].
  split; vm_compute; reflexivity.
Qed.

(** C7, amended: [positionLabel(containerWidth)] does nothing unless the
    interaction is in button mode and has a label; otherwise, with the
    button on display, the label ends up flagged [h5p-left-label] exactly
    when the button's CSS left without its fraction ([parseInt]), plus the
    label's left offset, plus the label's width, added as doubles, is
    greater than [containerWidth], whatever the flag was before; when the
    sum equals the width it is not flagged, nor when the CSS left is not a
    length at all. *)
Theorem positionLabel_flips_iff_overflow (br : Browser) (width : value)
    (st : State) :
  (isButton st = false \/ label st = None ->
   positionLabel br width st = Ok tt st)
  /\ (forall l h,
        isButton st = true ->
        label st = Some l ->
        interaction st = Some h ->
        is_Some (dom st !! l) ->
        exists st',
          positionLabel br width st = Ok tt st'
          /\ (forall left : Q,
                css_left br h = Fin left ->
                exists t : Z,
                  ((0 <= left)%Q -> (inject_Z t <= left < inject_Z t + 1)%Q)
                  /\ ((left <= 0)%Q -> (inject_Z t - 1 < left <= inject_Z t)%Q)
                  /\ let right_edge :=
                       Dbl.add (Dbl.add (Num.of_Z t) (position_left br l))
                               (outerWidth br l) in
                     (hasClass "h5p-left-label" l st' = true
                      <-> Num.gt right_edge (to_number width) = true)
                     /\ (right_edge = to_number width ->
                         hasClass "h5p-left-label" l st' = false))
          /\ ((forall left : Q, css_left br h <> Fin left) ->
              hasClass "h5p-left-label" l st' = false)).
Proof.
  split.
  - intros [Hb|Hl]; unfold positionLabel, bind, get.
    + by rewrite Hb.
    + rewrite Hl. by destruct (negb (isButton st)).
  - intros l h Hb Hl Hi [n Hn].
    set (edge := Dbl.add (Dbl.add (Num.parseInt (css_left br h))
                                  (position_left br l))
                         (outerWidth br l)).
    assert (Hrun : exists st',
               positionLabel br width st = Ok tt st'
               /\ hasClass "h5p-left-label" l st'
                  = Num.gt edge (to_number width)).
    { unfold positionLabel, bind, get. rewrite Hb, Hl. run. rewrite Hi.
      fold edge.
      destruct (Num.gt edge (to_number width)) eqn:Hgt; simpl;
        eexists; (split; [reflexivity|]);
        unfold hasClass; cbn [dom with_dom];
        rewrite !list_lookup_alter_eq, Hn;
        cbn [fmap option_fmap option_map].
      - apply bool_decide_eq_true. apply addClass_in.
      - apply bool_decide_eq_false. apply removeClass_not_in. }
    destruct Hrun as (st' & Hrun & Hflag).
    exists st'. split; [exact Hrun|]. split.
    + intros left Hleft.
      destruct (parseInt_truncates left) as (t & Ht & Hpos & Hneg).
      exists t. split; [exact Hpos|]. split; [exact Hneg|].
      intros right_edge.
      assert (Hedge : edge = right_edge).
      { unfold edge, right_edge. by rewrite Hleft, Ht. }
      rewrite Hflag, Hedge. split; [done|].
      intros ->. apply lt_irrefl.
    + intros Hnot. rewrite Hflag. unfold edge.
      destruct (css_left br h) as [q| | |]; [by destruct (Hnot q)| | |];
        apply lt_nan_r.
Qed.

Lemma positionLabel_flips_iff_overflow_witness :
  exists st',
    positionLabel Scene.browser15 (Sample.sec 125) Sample.button_shown
    = Ok tt st'
    /\ (forall left : Q,
          css_left Scene.browser15 0%nat = Fin left ->
          exists t : Z,
            ((0 <= left)%Q -> (inject_Z t <= left < inject_Z t + 1)%Q)
            /\ ((left <= 0)%Q -> (inject_Z t - 1 < left <= inject_Z t)%Q)
            /\ let right_edge :=
                 Dbl.add (Dbl.add (Num.of_Z t) (Fin 5)) (Fin 20) in
               (hasClass "h5p-left-label" 2 st' = true
                <-> Num.gt right_edge (Fin 125) = true)
               /\ (right_edge = Fin 125 ->
                   hasClass "h5p-left-label" 2 st' = false))
    /\ ((forall left : Q, css_left Scene.browser15 0%nat <> Fin left) ->
        hasClass "h5p-left-label" 2 st' = false).
Proof.
  exact (proj2 (positionLabel_flips_iff_overflow Scene.browser15
                  (Sample.sec 125) Sample.button_shown)
           2%nat 0%nat eq_refl eq_refl eq_refl (ex_intro _ _ eq_refl)).
Defined.

(** C10: [remove()] clears [$interaction] but leaves [$label] alone, so for
    a button-mode interaction that got a label, [positionLabel] after
    [remove] passes its guard, reads [.css] of the missing element and
    throws. *)
Theorem positionLabel_after_remove_throws (br : Browser) (updateSize : bool)
    (width : value) (st : State) (l : nat) :
  isButton st = true ->
  label st = Some l ->
  exists st',
    remove br updateSize st = Ok tt st'
    /\ interaction st' = None
    /\ label st' = Some l
    /\ isButton st' = true
    /\ exists st'', positionLabel br width st' = Throw TypeError st''.
Proof.
  intros Hb Hl.
  destruct (remove_ok br updateSize st)
    as (st' & Hr & Hi & _ & _ & Hfr & _ & Hl' & _).
  exists st'. rewrite Hl' , (frame_isButton st st' Hfr).
  repeat split; auto.
  unfold positionLabel, bind, get.
  rewrite (frame_isButton st st' Hfr), Hb, Hl', Hl. run. rewrite Hi.
  eauto.
Qed.

Lemma positionLabel_after_remove_throws_witness :
  exists st',
    remove Sample.browser false Sample.button_shown = Ok tt st'
    /\ interaction st' = None
    /\ label st' = Some 2%nat
    /\ isButton st' = true
    /\ exists st'',
         positionLabel Sample.browser (Sample.sec 640) st'
         = Throw TypeError st''.
Proof.
  exact (positionLabel_after_remove_throws Sample.browser false
           (Sample.sec 640) Sample.button_shown 2 eq_refl eq_refl).
Defined.

(** *** Resizing *)

(** [setSize] on a drag question: the element is removed and made anew,
    whatever the window is, before the resize is requested. *)
Lemma setSize_drag br w h st :
  library st = "H5P.DragQuestion" ->
  exists st2 st3,
    remove br true (with_parameters (set_size w h (parameters st)) st)
    = Ok tt st2
    /\ toggle br (p_from (parameters st2)) st2
       = Ok (Some (length (dom st))) st3
    /\ setSize br w h st = trigger_resize st3
    /\ interaction st3 = Some (length (dom st))
    /\ visual_count st3 = S (visual_count st)
    /\ instance st3 =
         (if isButton st then instance st else Some (length (runnables st)))
    /\ resized st3 = resized st
    /\ timers st3 =
         timers st ++ [if isButton st then TransitionIn else ResizeInstance].
Proof.
  intros Hlib.
  set (st1 := with_parameters (set_size w h (parameters st)) st).
  destruct (remove_ok br true st1)
    as (st2 & Hr & Hi & _ & Hv & Hfr & Hin & _ & Hre & Hru & Hti & Hlen).
  assert (Hb : isButton st2 = isButton st)
    by (rewrite (frame_isButton st1 st2 Hfr); reflexivity).
  change (length (dom st1)) with (length (dom st)) in Hlen.
  destruct (toggle_inside_hidden br (p_from (parameters st2)) st2)
    as (st3 & Ht & H1 & _ & H3 & _ & H5 & H6 & H7 & _);
    [by apply window_test_nan | exact Hi |].
  exists st2, st3.
  rewrite Hlen in Ht, H1. rewrite Hb, Hin, Hru in H5. rewrite Hb, Hti in H7.
  rewrite Hv in H3. rewrite Hre in H6.
  repeat split; auto.
  unfold setSize, bind, get, modify, when. simpl. rewrite Hlib. simpl.
  fold st1. rewrite Hr. simpl. unfold bind, get. simpl.
  change (toggle br VUndefined st2) with (toggle br (p_from (parameters st2)) st2).
  rewrite Ht. reflexivity.
Qed.

(** C3, as stated, fails.  For a button on display there is no instance to
    notify and the call throws with no notification sent; for a drag
    question poster on display the fresh instance gets the notification of
    [setSize] and, on the next tick, the one [createPoster] had pending. *)
Lemma setSize_one_resize_counterexample :
  (exists st',
      setSize Sample.browser (Sample.sec 12) (Sample.sec 8) Sample.button_shown
      = Throw TypeError st'
      /\ instance st' = None
      /\ resized st' = [])
  /\ (exists st',
        setSize Sample.browser (Sample.sec 12) (Sample.sec 8)
          (tick Sample.drag_poster_shown)
        = Ok tt st'
        /\ resized (tick Sample.drag_poster_shown) = [0%nat]
        /\ instance st' = Some 1%nat
        /\ resized (tick st') = [0%nat; 1%nat; 1%nat]).
Proof.
  split; eexists; (split; [vm_compute; reflexivity|]); vm_compute;
    repeat split.
Qed.

(** C3, amended: [setSize(width, height)] sends exactly one resize
    notification, before it returns, to the sub-content instance it then
    holds, provided there is one: for content other than a drag question
    when a poster has been made before, and for a drag question shown as a
    poster always, as the poster is made anew (which also leaves the
    next-tick resize of [createPoster] pending). *)
Theorem setSize_notifies_instance_once (br : Browser) (width height : value)
    (st : State) :
  (library st <> "H5P.DragQuestion" /\ is_Some (instance st))
  \/ (library st = "H5P.DragQuestion" /\ isButton st = false) ->
  exists st' i,
    setSize br width height st = Ok tt st'
    /\ instance st' = Some i
    /\ resized st' = resized st ++ [i]
    /\ timers st' =
         timers st ++
         (if String.eqb (library st) "H5P.DragQuestion"
          then [ResizeInstance] else []).
Proof.
  intros [[Hlib [i Hi]]|[Hlib Hb]].
  - apply String.eqb_neq in Hlib.
    unfold setSize, trigger_resize, bind, get, modify, when, ret. simpl.
    rewrite Hlib. simpl. rewrite Hi. simpl. exists (with_resized (resized st ++ [i])
      (with_parameters (set_size width height (parameters st)) st)), i.
    simpl. rewrite app_nil_r. repeat split; auto.
  - destruct (setSize_drag br width height st Hlib)
      as (st2 & st3 & _ & _ & Hs & _ & _ & Hin & Hre & Hti).
    rewrite Hb in Hin, Hti. rewrite Hs, Hlib.
    unfold trigger_resize, bind, get, modify. rewrite Hin. simpl.
    exists (with_resized (resized st3 ++ [length (runnables st)]) st3),
      (length (runnables st)).
    simpl. rewrite Hre. repeat split; auto.
Qed.

Lemma setSize_notifies_instance_once_witness :
  (exists st' i,
      setSize Sample.browser (Sample.sec 12) (Sample.sec 8) Sample.poster_shown
      = Ok tt st'
      /\ instance st' = Some i
      /\ resized st' = resized Sample.poster_shown ++ [i]
      /\ timers st' = timers Sample.poster_shown ++ [])
  /\ (exists st' i,
        setSize Sample.browser (Sample.sec 12) (Sample.sec 8)
          Sample.drag_poster_shown
        = Ok tt st'
        /\ instance st' = Some i
        /\ resized st' = resized Sample.drag_poster_shown ++ [i]
        /\ timers st' = timers Sample.drag_poster_shown ++ [ResizeInstance]).
Proof.
  split.
  - apply (setSize_notifies_instance_once Sample.browser (Sample.sec 12)
             (Sample.sec 8) Sample.poster_shown).
    left. split; [discriminate | by exists 0%nat].
  - apply (setSize_notifies_instance_once Sample.browser (Sample.sec 12)
             (Sample.sec 8) Sample.drag_poster_shown).
    right. split; reflexivity.
Defined.

(** C9: a [second] that is not a number ([undefined] or NaN) fails both
    comparisons of the window test, so [toggle] treats it as inside the
    window whatever the window is: an element on display is kept, and one is
    made when there is none.  [setSize] on a drag question takes this path:
    it passes [parameters.from], which does not exist, so after removing the
    element it always makes a new one. *)
Theorem toggle_non_numeric_is_in_window (br : Browser) (second : value)
    (st : State) :
  to_number second = NaN ->
  (js_lt second (p_duration_from (parameters st)) = false
   /\ js_gt second (p_duration_to (parameters st)) = false)
  /\ (forall h, interaction st = Some h -> toggle br second st = Ok None st)
  /\ (interaction st = None ->
      exists h st',
        toggle br second st = Ok (Some h) st'
        /\ interaction st' = Some h
        /\ visual_count st' = S (visual_count st))
  /\ (library st = "H5P.DragQuestion" ->
      forall width height,
        exists st2 h st3,
          remove br true
            (with_parameters (set_size width height (parameters st)) st)
          = Ok tt st2
          /\ to_number (p_from (parameters st2)) = NaN
          /\ toggle br (p_from (parameters st2)) st2 = Ok (Some h) st3
          /\ setSize br width height st = trigger_resize st3
          /\ interaction (final_state (setSize br width height st)) = Some h
          /\ visual_count (final_state (setSize br width height st))
             = S (visual_count st)).
Proof.
  intros Hs. repeat split.
  - unfold js_lt. by rewrite Hs.
  - unfold js_gt, Num.gt. rewrite Hs. apply lt_nan_r.
  - intros h Hi. apply toggle_inside_shown with h; [|done].
    by apply window_test_nan.
  - intros Hi.
    destruct (toggle_inside_hidden br second st)
      as (st' & Ht & H1 & _ & H3 & _); [by apply window_test_nan | done |].
    eauto.
  - intros Hlib width height.
    destruct (setSize_drag br width height st Hlib)
      as (st2 & st3 & Hr & Ht & Hsz & Hi & Hv & _).
    exists st2, (length (dom st)), st3. rewrite Hsz.
    repeat split; auto.
    + unfold trigger_resize, bind, get, modify, throw.
      by destruct (instance st3).
    + unfold trigger_resize, bind, get, modify, throw.
      by destruct (instance st3).
Qed.

Lemma toggle_non_numeric_is_in_window_witness :
  (js_lt VUndefined (Sample.sec 5) = false
   /\ js_gt VUndefined (Sample.sec 10) = false)
  /\ toggle Sample.browser VUndefined Sample.drag_poster_shown
     = Ok None Sample.drag_poster_shown
  /\ interaction (final_state (toggle Sample.browser (VNumber NaN)
                    Sample.drag_poster)) = Some 0%nat
  /\ interaction
       (final_state
          (setSize Sample.browser (Sample.sec 12) (Sample.sec 8)
             Sample.drag_poster)) = Some 0%nat.
Proof.
  destruct (toggle_non_numeric_is_in_window Sample.browser VUndefined
              Sample.drag_poster_shown eq_refl) as (Hcmp & Hkeep & _ & _).
  split; [exact Hcmp|].
  split; [exact (Hkeep 0%nat eq_refl)|].
  split; reflexivity.
Defined.

(** *** Image fitting *)

Lemma Qsign_pos (q : Q) : (0 < q)%Q -> exists p, Qsign q = Zpos p.
Proof.
  unfold Qlt, Qsign. simpl. rewrite Z.mul_1_r. intros Hq.
  destruct (Qnum q) as [|p|p]; try lia. by exists 1%positive.
Qed.

(** A finite quotient by a positive divisor is the exact quotient. *)
Lemma div_fin (a b : Q) :
  (0 < b)%Q -> Num.div (Fin a) (Fin b) = Fin (Qred (a / b)).
Proof.
  intros Hb. destruct (Qsign_pos b Hb) as [p Hp]. simpl. by rewrite Hp.
Qed.

Lemma to_em_fin (w h : Q) :
  to_em (mkSize (Fin w) (Fin h))
  = mkSize (Fin (Qred (w / 16))) (Fin (Qred (h / 16))).
Proof. reflexivity. Qed.


(** In whatever arithmetic, if nothing is greater than itself: the width
    that comes out was either tested against [max] or set to it, and so was
    the height, when the width fit did not recompute it. *)
Lemma fit_width_tested {N} `{Arith N} (max size : Size N) :
  (forall a : N, num_gt a a = false) ->
  num_gt (sz_width (fit_width max size)) (sz_width max) = false.
Proof.
  intros Hirr. unfold fit_width.
  destruct (num_gt (sz_width size) (sz_width max)) eqn:E;
    [apply Hirr | exact E].
Qed.

Lemma fit_height_tested {N} `{Arith N} (max size : Size N) :
  (forall a : N, num_gt a a = false) ->
  num_gt (sz_height (fit_height max size)) (sz_height max) = false.
Proof.
  intros Hirr. unfold fit_height.
  destruct (num_gt (sz_height size) (sz_height max)) eqn:E;
    [apply Hirr | exact E].
Qed.





(** * Further properties of the file *)

(** ** What [toggle] and [remove] touch *)

Lemma createButton_parameters br st :
  parameters (final_state (createButton br st)) = parameters st
  /\ resized (final_state (createButton br st)) = resized st.
Proof. run. by destruct (_ || _). Qed.

Lemma remove_dom br u st :
  dom (final_state (remove br u st))
  = match interaction st with
    | Some h => alter node_remove h (dom st)
    | None => dom st
    end.
Proof.
  unfold remove. run. destruct (interaction st); simpl; [|done].
  destruct (u && _); simpl; [by destruct (isButton st)|done].
Qed.

Lemma remove_plain_parameters br st :
  parameters (final_state (remove br false st)) = parameters st.
Proof. unfold remove. run. by destruct (interaction st). Qed.

(** X1: [toggle] never throws and never writes to the caller's
    [parameters]; nor does it send a [resize] itself, or change the
    constants of the closure. *)
Theorem toggle_keeps_parameters (br : Browser) (second : value) (st : State) :
  exists r st',
    toggle br second st = Ok r st'
    /\ parameters st' = parameters st
    /\ resized st' = resized st
    /\ library st' = library st
    /\ title st' = title st
    /\ classes st' = classes st.
Proof.
  unfold toggle, bind, get.
  destruct (_ || _); simpl.
  - destruct (interaction st) as [h|] eqn:Hi; simpl.
    + unfold remove. run. rewrite Hi. simpl. eauto 10.
    + eauto 10.
  - destruct (interaction st) as [h|] eqn:Hi; simpl; [eauto 10|].
    destruct (isButton st); run.
    + destruct (_ || _); simpl; eauto 10.
    + eauto 10.
Qed.

(** X2: leaving the window and coming back makes a new element: the old
    node is marked removed and stays so, the handle returned on re-entry is
    a different one, and [display] is fired for it. *)
Theorem toggle_out_and_in_recreates (br br' : Browser) (s_out s_in : value)
    (st : State) (h : nat) (n : Node) :
  window_test s_out st = false ->
  window_test s_in st = true ->
  interaction st = Some h ->
  dom st !! h = Some n ->
  exists st1 st2 h',
    toggle br s_out st = Ok None st1
    /\ interaction st1 = None
    /\ toggle br' s_in st1 = Ok (Some h') st2
    /\ interaction st2 = Some h'
    /\ h' <> h
    /\ dom st2 !! h = Some (node_remove n)
    /\ displayed st2 = displayed st ++ [h'].
Proof.
  intros Hout Hin Hi Hn.
  destruct (toggle_outside br s_out st Hout) as (st1 & Ht1 & Hi1 & Hd1 & _ & Hfr).
  assert (Hdom1 : dom st1 = alter node_remove h (dom st)).
  { pose proof (remove_dom br false st) as Hr. rewrite Hi in Hr.
    rewrite <- Hr. unfold toggle, bind, get in Ht1.
    unfold window_test in Hout. rewrite negb_false_iff in Hout.
    rewrite Hout, Hi in Ht1. simpl in Ht1. unfold ret in Ht1.
    destruct (remove br false st); [|discriminate].
    by injection Ht1 as <-. }
  assert (Hin1 : window_test s_in st1 = true)
    by (by rewrite (frame_window_test s_in st st1 Hfr)).
  destruct (toggle_inside_hidden br' s_in st1 Hin1 Hi1)
    as (st2 & Ht2 & Hi2 & Hd2 & _ & _ & _ & _ & _ & n2 & Hn2 & _).
  assert (Hlen : length (dom st1) = length (dom st))
    by (by rewrite Hdom1, length_alter).
  assert (Hlt : h < length (dom st)) by (by apply lookup_lt_Some in Hn).
  exists st1, st2, (length (dom st1)).
  repeat split; auto.
  - lia.
  - unfold toggle, bind, get in Ht2.
    unfold window_test in Hin1. rewrite negb_true_iff in Hin1.
    rewrite Hin1, Hi1 in Ht2. simpl in Ht2. clear Hin1.
    assert (Hpre : forall o : outcome unit,
      (exists l, dom (final_state o) = dom st1 ++ l) ->
      forall r st',
        (match o with Ok _ s => Ok (interaction s) s | Throw e s => Throw e s end)
        = Ok r st' -> dom st' !! h = Some (node_remove n)).
    { intros o [l Hl] r st' Ho. destruct o as [[] s|e s]; [|discriminate].
      injection Ho as _ <-. simpl in Hl. rewrite Hl.
      apply lookup_app_l_Some. rewrite Hdom1, list_lookup_alter_eq, Hn.
      reflexivity. }
    destruct (isButton st1).
    + eapply (Hpre (createButton br' st1)); [|exact Ht2].
      run. destruct (_ || _); simpl; rewrite <- !app_assoc; eauto.
    + eapply (Hpre (createPoster st1)); [|exact Ht2].
      run. rewrite <- !app_assoc; eauto.
  - by rewrite Hd2, Hd1.
Qed.

(** ** Clicks keep the closure in order *)

(** What the host sees of a call of [openDialog], and how it ends. *)
Lemma openDialog_run host file st :
  openDialog host file st
  = if String.eqb (library st) "H5P.Image" then
      match file with
      | None => ([DialogOpen (length (dom st))], Throw TypeError (opened st))
      | Some f =>
          (DialogOpen (length (dom st))
           :: (if truthy (file_width f) && truthy (file_height f) then
                 let fit := @resizeImage number double_arith
                              (img_fontSize host)
                              (getMaxSize host (interaction st))
                              (mkSize (to_number (file_width f))
                                      (to_number (file_height f))) in
                 [ImgCss (img_css fit);
                  DialogPosition (interaction st) (Some (dialog_size fit))]
               else
                 [OnImgLoad (getMaxSize host (interaction st));
                  DialogPosition (interaction st) None])
           ++ [LaterResize (length (runnables st))],
           Ok tt (opened st))
      end
    else
      (DialogOpen (length (dom st))
       :: (if negb (String.eqb (library st) "H5P.Summary"
                    || String.eqb (library st) "H5P.Blanks")
           then [DialogPosition (interaction st) None] else [])
       ++ (if String.eqb (library st) "H5P.Summary"
           then [OnResize (length (runnables st))] else [])
       ++ [LaterResize (length (runnables st))],
       Ok tt (opened st)).
Proof.
  unfold openDialog, resizeImage_effects, hbind, lift, tell, hret, get,
    throw, create_node, newRunnable.
  cbn -[resizeImage truthy String.eqb].
  destruct (String.eqb_spec (library st) "H5P.Image") as [Him|Him].
  - destruct file as [f|]; [|reflexivity].
    rewrite Him. cbn -[resizeImage truthy].
    by destruct (truthy (file_width f) && truthy (file_height f)).
  - destruct (String.eqb (library st) "H5P.Summary"),
      (String.eqb (library st) "H5P.Blanks"); reflexivity.
Qed.

Lemma click_run host file dialogDisabled st :
  click host file dialogDisabled st
  = if negb dialogDisabled && negb (String.eqb (library st) "H5P.Nil") then
      openDialog host file st
    else ([], Ok tt st).
Proof.
  unfold click, hbind, lift, get, hret.
  destruct (negb dialogDisabled && _); [|reflexivity].
  by destruct (openDialog host file st).
Qed.

Lemma click_state host file dialogDisabled st :
  final_state (snd (click host file dialogDisabled st)) = st
  \/ final_state (snd (click host file dialogDisabled st)) = opened st.
Proof.
  rewrite click_run.
  destruct (negb dialogDisabled && _); [|by left].
  rewrite openDialog_run. right.
  destruct (String.eqb (library st) "H5P.Image"); [destruct file|];
    reflexivity.
Qed.

Lemma wf_opened st : well_formed st -> well_formed (opened st).
Proof.
  intros [W1 W2 W3 W4]. constructor; simpl.
  - intros h Hh. destruct (W1 h Hh) as (n & Hn & Hrest).
    exists n. split; [by apply lookup_app_l_Some | exact Hrest].
  - intros k n Hn Hv Hr.
    apply lookup_app_Some in Hn as [Hn|[_ Hn]]; [eauto|].
    apply list_lookup_singleton_Some in Hn as [_ <-]. discriminate.
  - intros l Hl. destruct (W3 l Hl) as [n Hn].
    exists n. by apply lookup_app_l_Some.
  - intros i Hi. apply W4 in Hi. rewrite length_app. simpl. lia.
Qed.

Lemma in_use_well_formed st : in_use st -> well_formed st.
Proof.
  induction 1 as [p lbl|st br c _ IH|st host file d _ IH].
  - apply wf_new.
  - destruct c; simpl.
    + by apply wf_toggle.
    + by apply wf_remove.
    + by apply wf_positionLabel.
    + by apply (wf_same st).
    + by apply wf_setSize.
    + by apply wf_tick.
  - destruct (click_state host file d st) as [-> | ->];
      [done | by apply wf_opened].
Qed.

(** X3: whatever the host calls and the user clicks, at most one visual
    element is in place at any time, it is the one [$interaction] points to,
    and [$label] and [instance], once set, point to a node and a runnable
    that were made. *)
Theorem in_use_single_element (st : State) :
  in_use st ->
  (forall k k' n n',
      dom st !! k = Some n -> is_visual n = true -> n_removed n = false ->
      dom st !! k' = Some n' -> is_visual n' = true -> n_removed n' = false ->
      k = k' /\ interaction st = Some k)
  /\ (interaction st = None ->
      forall k n, dom st !! k = Some n -> is_visual n = true ->
                  n_removed n = true)
  /\ (forall l, label st = Some l -> is_Some (dom st !! l))
  /\ (forall i, instance st = Some i -> is_Some (runnables st !! i)).
Proof.
  intros Hst. destruct (in_use_well_formed st Hst) as [W1 W2 W3 W4].
  split; [|split; [|split]].
  - intros k k' n n' Hn Hv Hr Hn' Hv' Hr'.
    pose proof (W2 k n Hn Hv Hr). pose proof (W2 k' n' Hn' Hv' Hr').
    split; congruence.
  - intros Hnone k n Hn Hv. destruct (n_removed n) eqn:Hr; [done|].
    pose proof (W2 k n Hn Hv Hr). congruence.
  - exact W3.
  - intros i Hi. apply lookup_lt_is_Some. auto.
Qed.

Lemma in_use_single_element_witness :
  in_use Sample.button_shown
  /\ (forall l, label Sample.button_shown = Some l ->
                is_Some (dom Sample.button_shown !! l)).
Proof.
  assert (Hu : in_use Sample.button_shown).
  { change (in_use (perform Sample.browser (CallToggle (Sample.sec 7))
                      Sample.button)).
    apply use_call. unfold Sample.button. apply use_new. }
  split; [exact Hu|].
  exact (proj1 (proj2 (proj2 (in_use_single_element _ Hu)))).
Defined.

(** ** Removing, and the size of a drag question *)

(** X4: [remove] never throws and doing it twice is doing it once; of the
    DOM it changes one thing, the removed mark of the element on display. *)
Theorem remove_twice_is_once (br br' : Browser) (updateSize updateSize' : bool)
    (st : State) :
  exists st',
    remove br updateSize st = Ok tt st'
    /\ remove br' updateSize' st' = Ok tt st'
    /\ dom st' = match interaction st with
                 | Some h => alter node_remove h (dom st)
                 | None => dom st
                 end.
Proof.
  destruct (remove_ok br updateSize st) as (st' & Hr & Hi & _).
  exists st'. split; [exact Hr|]. split.
  - unfold remove, bind, get. by rewrite Hi.
  - pose proof (remove_dom br updateSize st) as Hd. by rewrite Hr in Hd.
Qed.

Lemma round_near (q : Q) :
  (q - (1 # 2) < inject_Z (Qfloor (q + (1 # 2)))
   /\ inject_Z (Qfloor (q + (1 # 2))) <= q + (1 # 2))%Q.
Proof.
  pose proof (Qfloor_le (q + (1 # 2))) as Hle.
  pose proof (Qlt_floor (q + (1 # 2))) as Hlt.
  rewrite inject_Z_plus in Hlt. change (inject_Z 1) with 1%Q in Hlt.
  split; lra.
Qed.

Lemma remove_true_drag_state br st h :
  library st = "H5P.DragQuestion" ->
  interaction st = Some h ->
  remove br true st
  = Ok tt
      (with_interaction None
         (with_dom (alter node_remove h (dom st))
            (with_parameters
               (if isButton st then
                  set_size
                    (VNumber (Dbl.div
                       (sz_width (a_question_size (p_action (parameters st))))
                       (css_fontSize br h)))
                    (VNumber (Dbl.div
                       (sz_height (a_question_size (p_action (parameters st))))
                       (css_fontSize br h)))
                    (parameters st)
                else
                  set_question_size
                    (mkSize
                       (Num.round (Dbl.mul (to_number (p_width (parameters st)))
                                           (css_fontSize br h)))
                       (Num.round (Dbl.mul (to_number (p_height (parameters st)))
                                           (css_fontSize br h))))
                    (parameters st))
               st))).
Proof.
  intros Hlib Hi.
  unfold remove, bind, get, when, modify, update_node, ret.
  rewrite Hi, Hlib. cbn [andb String.eqb Ascii.eqb Bool.eqb].
  by destruct (isButton st).
Qed.

(** X5: [remove(true)] on a drag question shown as a poster writes the
    poster's size into the question's settings in whole pixels: the
    integers nearest to the products, in doubles, of the em size and the
    font size, a half going up; [parameters.width] and [parameters.height]
    stay as they are. *)
Theorem remove_pushes_poster_size (br : Browser) (st : State) (h : nat)
    (w ht fs pw ph : Q) :
  library st = "H5P.DragQuestion" ->
  isButton st = false ->
  interaction st = Some h ->
  p_width (parameters st) = VNumber (Fin w) ->
  p_height (parameters st) = VNumber (Fin ht) ->
  css_fontSize br h = Fin fs ->
  Dbl.mul (Fin w) (Fin fs) = Fin pw ->
  Dbl.mul (Fin ht) (Fin fs) = Fin ph ->
  exists st' (rw rh : Z),
    remove br true st = Ok tt st'
    /\ a_question_size (p_action (parameters st'))
       = mkSize (Fin (inject_Z rw)) (Fin (inject_Z rh))
    /\ p_width (parameters st') = VNumber (Fin w)
    /\ p_height (parameters st') = VNumber (Fin ht)
    /\ (pw - (1 # 2) < inject_Z rw /\ inject_Z rw <= pw + (1 # 2))%Q
    /\ (ph - (1 # 2) < inject_Z rh /\ inject_Z rh <= ph + (1 # 2))%Q.
Proof.
  intros Hlib Hb Hi Hw Hh Hfs Hpw Hph.
  rewrite (remove_true_drag_state br st h Hlib Hi), Hb, Hw, Hh, Hfs.
  cbn [to_number]. rewrite Hpw, Hph.
  exists (with_interaction None
            (with_dom (alter node_remove h (dom st))
               (with_parameters
                  (set_question_size
                     (mkSize (Num.round (Fin pw)) (Num.round (Fin ph)))
                     (parameters st)) st))),
    (Qfloor (pw + (1 # 2))), (Qfloor (ph + (1 # 2))).
  split; [reflexivity|]. split; [reflexivity|].
  split; [exact Hw|]. split; [exact Hh|].
  split; apply round_near.
Qed.

Lemma remove_pushes_poster_size_witness :
  exists st' (rw rh : Z),
    remove Scene.browser15 true Scene.drag_poster_thin = Ok tt st'
    /\ a_question_size (p_action (parameters st'))
       = mkSize (Fin (inject_Z rw)) (Fin (inject_Z rh))
    /\ p_width (parameters st')
       = VNumber (Fin (5404319552844595 # 18014398509481984))
    /\ p_height (parameters st') = VNumber (Fin 8)
    /\ ((9 # 2) - (1 # 2) < inject_Z rw /\ inject_Z rw <= (9 # 2) + (1 # 2))%Q
    /\ (120 - (1 # 2) < inject_Z rh /\ inject_Z rh <= 120 + (1 # 2))%Q.
Proof.
  apply (remove_pushes_poster_size Scene.browser15 Scene.drag_poster_thin
           2 (5404319552844595 # 18014398509481984) 8 15 (9 # 2) 120);
    vm_compute; reflexivity.
Defined.

(** X6: [remove(true)] on a drag question shown as a button takes the size
    the other way: [parameters.width] and [parameters.height] become the
    doubles nearest to the question's pixel size over the font size, which
    is the quotient itself when that is a double; the question's settings
    stay as they are. *)
Theorem remove_pulls_button_size (br : Browser) (st : State) (h : nat)
    (sw sh fs : Q) :
  library st = "H5P.DragQuestion" ->
  isButton st = true ->
  interaction st = Some h ->
  a_question_size (p_action (parameters st)) = mkSize (Fin sw) (Fin sh) ->
  css_fontSize br h = Fin fs ->
  (0 < fs)%Q ->
  exists st',
    remove br true st = Ok tt st'
    /\ p_width (parameters st') = VNumber (round64 (sw / fs))
    /\ p_height (parameters st') = VNumber (round64 (sh / fs))
    /\ (is_double (sw / fs) = true ->
        exists w, p_width (parameters st') = VNumber (Fin w)
                  /\ (w * fs == sw)%Q)
    /\ (is_double (sh / fs) = true ->
        exists ht, p_height (parameters st') = VNumber (Fin ht)
                   /\ (ht * fs == sh)%Q)
    /\ a_question_size (p_action (parameters st')) = mkSize (Fin sw) (Fin sh).
Proof.
  intros Hlib Hb Hi Hsz Hfs Hpos.
  rewrite (remove_true_drag_state br st h Hlib Hi), Hb, Hsz, Hfs.
  cbn [sz_width sz_height].
  assert (Hdiv : forall a, Dbl.div (Fin a) (Fin fs) = round64 (a / fs)).
  { intros a. unfold Dbl.div. rewrite (div_fin _ fs Hpos). cbn [Dbl.rnd].
    apply round64_comp, Qred_correct. }
  rewrite !Hdiv.
  eexists. split; [reflexivity|]. cbn. rewrite Hsz.
  split; [reflexivity|]. split; [reflexivity|].
  split; [|split; [|reflexivity]].
  - intros Hd. rewrite (is_double_exact _ Hd). eexists. split; [reflexivity|].
    rewrite Qred_correct. field. lra.
  - intros Hd. rewrite (is_double_exact _ Hd). eexists. split; [reflexivity|].
    rewrite Qred_correct. field. lra.
Qed.

Lemma remove_pulls_button_size_witness :
  exists st',
    remove Scene.browser15 true Scene.drag_button_shown = Ok tt st'
    /\ p_width (parameters st') = VNumber (round64 (320 / 15))
    /\ p_height (parameters st') = VNumber (round64 (160 / 15))
    /\ (is_double (320 / 15) = true ->
        exists w, p_width (parameters st') = VNumber (Fin w)
                  /\ (w * 15 == 320)%Q)
    /\ (is_double (160 / 15) = true ->
        exists ht, p_height (parameters st') = VNumber (Fin ht)
                   /\ (ht * 15 == 160)%Q)
    /\ a_question_size (p_action (parameters st'))
       = mkSize (Fin 320) (Fin 160).
Proof.
  exact (remove_pulls_button_size Scene.browser15 Scene.drag_button_shown
           0 320 160 15 eq_refl eq_refl eq_refl eq_refl eq_refl eq_refl).
Defined.

(** ** What a new element looks like *)

Lemma toggle_creates_poster br s st :
  window_test s st = true ->
  interaction st = None ->
  isButton st = false ->
  exists st',
    toggle br s st = Ok (Some (length (dom st))) st'
    /\ interaction st' = Some (length (dom st))
    /\ dom st' !! length (dom st) = Some (poster_of st)
    /\ (forall k, k < length (dom st) -> dom st' !! k = dom st !! k)
    /\ parameters st' = parameters st
    /\ instance st' = Some (length (runnables st))
    /\ runnables st' = runnables st ++ [S (length (dom st))]
    /\ label st' = label st
    /\ resized st' = resized st
    /\ timers st' = timers st ++ [ResizeInstance].
Proof.
  unfold window_test. rewrite negb_true_iff. intros Hw Hi Hb.
  unfold toggle, bind, get. rewrite Hw, Hi. simpl. rewrite Hb. run.
  eexists. split; [reflexivity|]. simpl.
  rewrite <- !app_assoc. simpl. rewrite length_app. simpl.
  replace (length (dom st) + 1) with (S (length (dom st))) by lia.
  repeat split; try reflexivity.
  - by rewrite list_lookup_middle.
  - intros k Hk. by rewrite lookup_app_l.
Qed.

Lemma toggle_creates_button br s st :
  window_test s st = true ->
  interaction st = None ->
  isButton st = true ->
  exists st',
    toggle br s st = Ok (Some (length (dom st))) st'
    /\ interaction st' = Some (length (dom st))
    /\ dom st' !! length (dom st) = Some (button_of st)
    /\ (forall k, k < length (dom st) -> dom st' !! k = dom st !! k)
    /\ parameters st' = parameters st
    /\ instance st' = instance st
    /\ runnables st' = runnables st
    /\ resized st' = resized st
    /\ timers st' = timers st ++ [TransitionIn]
    /\ label st' =
         (if String.eqb (library st) "H5P.Nil"
             || label_has_text br (parameters st)
          then Some (length (dom st) + 2) else label st)
    /\ (String.eqb (library st) "H5P.Nil" || label_has_text br (parameters st)
          = true ->
        dom st' !! (length (dom st) + 2)
        = Some {| n_tag := "div";
                  n_class := ["h5p-interaction-label"];
                  n_css := [];
                  n_html := p_label (parameters st);
                  n_parent := Some (length (dom st));
                  n_removed := false |}).
Proof.
  unfold window_test. rewrite negb_true_iff. intros Hw Hi Hb.
  unfold toggle, bind, get. rewrite Hw, Hi. simpl. rewrite Hb. clear Hw. run.
  destruct (_ || _); simpl;
    (eexists; split; [reflexivity|]); simpl;
    rewrite <- !app_assoc; simpl; rewrite ?length_app; simpl;
    repeat split; try reflexivity; try discriminate;
    try (by rewrite list_lookup_middle);
    try (intros k Hk; by rewrite lookup_app_l).
  - intros _. rewrite lookup_app_r by lia.
    by replace (length (dom st) + 2 - length (dom st)) with 2 by lia.
Qed.

(** X7: [setSize(w, h)] on a drag question shown as a poster replaces the
    poster by a new one of [w] x [h] em (10 for a zero), at the same place,
    keeps [w] and [h] in [parameters], and leaves [Math.round] of the
    products [w * fontSize] and [h * fontSize], taken in doubles, in the
    question's settings: 0.3 em at a 15px font gives 5 pixels, the product
    being the double 4.5. *)
Theorem setSize_drag_poster_resizes (br : Browser) (st : State) (h : nat)
    (old : Node) (width height : value) :
  library st = "H5P.DragQuestion" ->
  isButton st = false ->
  interaction st = Some h ->
  dom st !! h = Some old ->
  exists st',
    setSize br width height st = Ok tt st'
    /\ p_width (parameters st') = width
    /\ p_height (parameters st') = height
    /\ a_question_size (p_action (parameters st'))
       = mkSize (Num.round (Dbl.mul (to_number width) (css_fontSize br h)))
                (Num.round (Dbl.mul (to_number height) (css_fontSize br h)))
    /\ interaction st' = Some (length (dom st))
    /\ dom st' !! h = Some (node_remove old)
    /\ exists n,
         dom st' !! length (dom st) = Some n
         /\ n_css n = [("left", (p_x (parameters st), "%"));
                       ("top", (p_y (parameters st), "%"));
                       ("width", (or_ten width, "em"));
                       ("height", (or_ten height, "em"))].
Proof.
  intros Hlib Hb Hi Hold.
  set (st1 := with_parameters (set_size width height (parameters st)) st).
  pose proof (remove_true_drag_state br st1 h Hlib Hi) as Hr.
  change (isButton st1) with (isButton st) in Hr. rewrite Hb in Hr.
  remember (with_interaction None
              (with_dom (alter node_remove h (dom st1))
                 (with_parameters
                    (set_question_size
                       (mkSize
                          (Num.round (Dbl.mul (to_number (p_width (parameters st1)))
                                              (css_fontSize br h)))
                          (Num.round (Dbl.mul (to_number (p_height (parameters st1)))
                                              (css_fontSize br h))))
                       (parameters st1))
                    st1))) as st2 eqn:Est2.
  assert (Hb2 : isButton st2 = false) by (by subst st2).
  assert (Hi2 : interaction st2 = None) by (by subst st2).
  assert (Hd2 : dom st2 = alter node_remove h (dom st)) by (by subst st2).
  assert (Hr2 : runnables st2 = runnables st) by (by subst st2).
  assert (Hp2 : parameters st2
                = set_question_size
                    (mkSize
                       (Num.round (Dbl.mul (to_number width) (css_fontSize br h)))
                       (Num.round (Dbl.mul (to_number height) (css_fontSize br h))))
                    (set_size width height (parameters st)))
    by (by subst st2).
  assert (Hlen : length (dom st2) = length (dom st))
    by (rewrite Hd2; apply length_alter).
  destruct (toggle_creates_poster br (p_from (parameters st2)) st2)
    as (st3 & Ht & Hi3 & Hn3 & Hkeep & Hp3 & Hin3 & _);
    [by apply window_test_nan | exact Hi2 | exact Hb2 |].
  rewrite Hlen in Ht, Hi3, Hn3, Hkeep. rewrite Hr2 in Hin3.
  exists (with_resized (resized st3 ++ [length (runnables st)]) st3).
  split.
  - unfold setSize, bind, get, modify, when. simpl. rewrite Hlib. simpl.
    fold st1. rewrite Hr. simpl. unfold bind, get. simpl.
    change (toggle br VUndefined st2)
      with (toggle br (p_from (parameters st2)) st2).
    rewrite Ht. simpl. unfold trigger_resize, bind, get, modify, ret.
    simpl. by rewrite Hin3.
  - simpl. rewrite Hp3, Hp2, Hi3, Hn3. repeat split.
    + rewrite Hkeep by (by apply lookup_lt_Some in Hold).
      by rewrite Hd2, list_lookup_alter_eq, Hold.
    + eexists. split; [reflexivity|]. unfold poster_of. by rewrite Hp2.
Qed.

Lemma setSize_drag_poster_resizes_witness :
  exists st',
    setSize Scene.browser15 (VNumber (Dbl.of_Q (3 # 10))) (Sample.sec 8)
      Sample.drag_poster_shown = Ok tt st'
    /\ p_width (parameters st') = VNumber (Dbl.of_Q (3 # 10))
    /\ p_height (parameters st') = Sample.sec 8
    /\ a_question_size (p_action (parameters st'))
       = mkSize (Fin 5) (Fin 120)
    /\ interaction st' = Some 2%nat
    /\ dom st' !! 0%nat = Some (node_remove (poster_of Sample.drag_poster))
    /\ exists n,
         dom st' !! 2%nat = Some n
         /\ n_css n = [("left", (Sample.sec 50, "%"));
                       ("top", (Sample.sec 50, "%"));
                       ("width", (VNumber (Dbl.of_Q (3 # 10)), "em"));
                       ("height", (Sample.sec 8, "em"))].
Proof.
  exact (setSize_drag_poster_resizes Scene.browser15 Sample.drag_poster_shown
           0 (poster_of Sample.drag_poster) (VNumber (Dbl.of_Q (3 # 10)))
           (Sample.sec 8) eq_refl eq_refl eq_refl eq_refl).
Defined.

Lemma trigger_resize_parameters st :
  parameters (final_state (trigger_resize st)) = parameters st
  /\ dom (final_state (trigger_resize st)) = dom st
  /\ interaction (final_state (trigger_resize st)) = interaction st
  /\ label (final_state (trigger_resize st)) = label st
  /\ instance (final_state (trigger_resize st)) = instance st
  /\ displayed (final_state (trigger_resize st)) = displayed st
  /\ timers (final_state (trigger_resize st)) = timers st.
Proof.
  unfold trigger_resize, bind, get, modify, throw.
  destruct (instance st) eqn:Hi; simpl; rewrite ?Hi; repeat split.
Qed.

(** X8: [setSize(w, h)] on a drag question shown as a button does not keep
    [w] and [h]: when it is over, [parameters.width] and
    [parameters.height] hold the question's own pixel size over the font
    size, divided in doubles, whatever was passed: 320 pixels at a 15px
    font give 21.333333333333332 em. *)
Theorem setSize_drag_button_takes_question_size (br : Browser) (st : State)
    (h : nat) (width height : value) :
  library st = "H5P.DragQuestion" ->
  isButton st = true ->
  interaction st = Some h ->
  let size := a_question_size (p_action (parameters st)) in
  let st' := final_state (setSize br width height st) in
  p_width (parameters st')
  = VNumber (Dbl.div (sz_width size) (css_fontSize br h))
  /\ p_height (parameters st')
     = VNumber (Dbl.div (sz_height size) (css_fontSize br h))
  /\ a_question_size (p_action (parameters st')) = size.
Proof.
  intros Hlib Hb Hi size st'.
  set (st1 := with_parameters (set_size width height (parameters st)) st).
  pose proof (remove_true_drag_state br st1 h Hlib Hi) as Hr.
  change (isButton st1) with (isButton st) in Hr. rewrite Hb in Hr.
  remember (with_interaction None
              (with_dom (alter node_remove h (dom st1))
                 (with_parameters
                    (set_size
                       (VNumber (Dbl.div
                          (sz_width (a_question_size (p_action (parameters st1))))
                          (css_fontSize br h)))
                       (VNumber (Dbl.div
                          (sz_height (a_question_size (p_action (parameters st1))))
                          (css_fontSize br h)))
                       (parameters st1))
                    st1))) as st2 eqn:Est2.
  assert (Hb2 : isButton st2 = true) by (by subst st2).
  assert (Hi2 : interaction st2 = None) by (by subst st2).
  assert (Hp2 : parameters st2
                = set_size
                    (VNumber (Dbl.div (sz_width size) (css_fontSize br h)))
                    (VNumber (Dbl.div (sz_height size) (css_fontSize br h)))
                    (set_size width height (parameters st)))
    by (by subst st2).
  destruct (toggle_creates_button br (p_from (parameters st2)) st2)
    as (st3 & Ht & _ & _ & _ & Hp3 & _);
    [by apply window_test_nan | exact Hi2 | exact Hb2 |].
  assert (Hs : setSize br width height st = trigger_resize st3).
  { unfold setSize, bind, get, modify, when. simpl. rewrite Hlib. simpl.
    fold st1. rewrite Hr. simpl. unfold bind, get. simpl.
    change (toggle br VUndefined st2)
      with (toggle br (p_from (parameters st2)) st2).
    by rewrite Ht. }
  subst st'. rewrite Hs.
  destruct (trigger_resize_parameters st3) as (-> & _).
  by rewrite Hp3, Hp2.
Qed.

Lemma setSize_drag_button_takes_question_size_witness :
  p_width (parameters (final_state
     (setSize Scene.browser15 (Sample.sec 12) (Sample.sec 8)
        Scene.drag_button_shown)))
  = VNumber (Fin (6004799503160661 # 281474976710656))
  /\ p_height (parameters (final_state
       (setSize Scene.browser15 (Sample.sec 12) (Sample.sec 8)
          Scene.drag_button_shown)))
     = VNumber (Fin (6004799503160661 # 562949953421312))
  /\ a_question_size (p_action (parameters (final_state
       (setSize Scene.browser15 (Sample.sec 12) (Sample.sec 8)
          Scene.drag_button_shown))))
     = mkSize (Fin 320) (Fin 160).
Proof.
  exact (setSize_drag_button_takes_question_size Scene.browser15
           Scene.drag_button_shown 0 (Sample.sec 12) (Sample.sec 8)
           eq_refl eq_refl eq_refl).
Defined.

(** X9: for content other than a drag question, [setSize(w, h)] writes [w]
    and [h] into [parameters] and touches nothing else of the closure or
    the DOM (the element on display keeps its CSS size); it returns normally
    exactly when the interaction holds an instance to notify. *)
Theorem setSize_plain_keeps_dom (br : Browser) (st : State)
    (width height : value) :
  library st <> "H5P.DragQuestion" ->
  let out := setSize br width height st in
  parameters (final_state out) = set_size width height (parameters st)
  /\ dom (final_state out) = dom st
  /\ interaction (final_state out) = interaction st
  /\ label (final_state out) = label st
  /\ instance (final_state out) = instance st
  /\ displayed (final_state out) = displayed st
  /\ timers (final_state out) = timers st
  /\ ((exists st', out = Ok tt st') <-> is_Some (instance st)).
Proof.
  intros Hlib out. apply String.eqb_neq in Hlib.
  assert (Hs : out = trigger_resize
                 (with_parameters (set_size width height (parameters st)) st)).
  { subst out. unfold setSize, bind, get, modify, when, ret. simpl.
    by rewrite Hlib. }
  rewrite Hs.
  destruct (trigger_resize_parameters
              (with_parameters (set_size width height (parameters st)) st))
    as (-> & -> & -> & -> & -> & -> & ->).
  repeat split; try reflexivity.
  - intros [st' Hok]. revert Hok. run. destruct (instance st); [eauto|done].
  - intros [i Hi]. run. rewrite Hi. eauto.
Qed.

Lemma setSize_plain_keeps_dom_witness :
  parameters (final_state (setSize Sample.browser (Sample.sec 12)
                (Sample.sec 8) Sample.poster_shown))
  = set_size (Sample.sec 12) (Sample.sec 8) (parameters Sample.poster_shown)
  /\ dom (final_state (setSize Sample.browser (Sample.sec 12)
            (Sample.sec 8) Sample.poster_shown))
     = dom Sample.poster_shown.
Proof.
  assert (Hlib : library Sample.poster_shown <> "H5P.DragQuestion")
    by discriminate.
  destruct (setSize_plain_keeps_dom Sample.browser Sample.poster_shown
              (Sample.sec 12) (Sample.sec 8) Hlib) as (Hp & Hd & _).
  split; [exact Hp | exact Hd].
Defined.

(** X10: [setPosition(x, y)] only writes [x] and [y] into [parameters],
    whatever the state: the DOM is left alone, so an element on display
    stays where it is; and the next element [toggle] makes, button or
    poster, is placed at [x]%, [y]%. *)
Theorem setPosition_places_next_element (br : Browser) (x y second : value)
    (st : State) :
  exists st1,
    setPosition x y st = Ok tt st1
    /\ parameters st1 = set_position x y (parameters st)
    /\ dom st1 = dom st
    /\ interaction st1 = interaction st
    /\ label st1 = label st
    /\ displayed st1 = displayed st
    /\ (window_test second st = true ->
        interaction st = None ->
        exists st2 h n,
          toggle br second st1 = Ok (Some h) st2
          /\ dom st2 !! h = Some n
          /\ take 2 (n_css n) = [("left", (x, "%")); ("top", (y, "%"))]).
Proof.
  set (st1 := with_parameters (set_position x y (parameters st)) st).
  exists st1. split_and!; try reflexivity.
  intros Hw Hi.
  assert (Hw1 : window_test second st1 = true) by exact Hw.
  assert (Hi1 : interaction st1 = None) by exact Hi.
  destruct (isButton st1) eqn:Hb.
  - destruct (toggle_creates_button br second st1 Hw1 Hi1 Hb)
      as (st2 & Ht & _ & Hn & _).
    exists st2, (length (dom st1)), (button_of st1). by repeat split.
  - destruct (toggle_creates_poster br second st1 Hw1 Hi1 Hb)
      as (st2 & Ht & _ & Hn & _).
    exists st2, (length (dom st1)), (poster_of st1). by repeat split.
Qed.

(** With a poster on display at 50%, 50%: the poster stays there. *)
Lemma setPosition_places_next_element_witness :
  exists st1,
    setPosition (Sample.sec 20) (Sample.sec 30) Sample.poster_shown = Ok tt st1
    /\ parameters st1
       = set_position (Sample.sec 20) (Sample.sec 30)
           (parameters Sample.poster_shown)
    /\ dom st1 = dom Sample.poster_shown
    /\ interaction st1 = Some 0%nat
    /\ (n_css <$> dom st1 !! 0%nat)
       = Some [("left", (Sample.sec 50, "%")); ("top", (Sample.sec 50, "%"));
               ("width", (VNumber (Fin 10), "em"));
               ("height", (VNumber (Fin 10), "em"))].
Proof.
  destruct (setPosition_places_next_element Sample.browser (Sample.sec 20)
              (Sample.sec 30) (Sample.sec 7) Sample.poster_shown)
    as (st1 & Hs & Hp & Hd & Hi & _).
  exists st1. split; [exact Hs|]. split; [exact Hp|]. split; [exact Hd|].
  split; [exact Hi|]. rewrite Hd. reflexivity.
Defined.

Lemma or_ten_falsy (v : value) : truthy v = false -> or_ten v = VNumber (Fin 10).
Proof. unfold or_ten. by intros ->. Qed.

Lemma or_ten_truthy (v : value) : truthy v = true -> or_ten v = v.
Proof. unfold or_ten. by intros ->. Qed.

(** X11: a poster made by [toggle] is as wide and as high, in em, as
    [parameters.width] and [parameters.height] say, and 10 em where the
    value is absent, zero or NaN; a non-zero number, negative ones included,
    is taken as it is. *)
Theorem poster_size_defaults_to_ten (br : Browser) (second : value)
    (st : State) :
  window_test second st = true ->
  interaction st = None ->
  isButton st = false ->
  exists st' h n wd ht,
    toggle br second st = Ok (Some h) st'
    /\ dom st' !! h = Some n
    /\ n_css n !! 2%nat = Some ("width", (wd, "em"))
    /\ n_css n !! 3%nat = Some ("height", (ht, "em"))
    /\ (p_width (parameters st) = VUndefined
        \/ p_width (parameters st) = VNumber NaN
        \/ (exists q, p_width (parameters st) = VNumber (Fin q) /\ (q == 0)%Q) ->
        wd = VNumber (Fin 10))
    /\ (forall q, p_width (parameters st) = VNumber (Fin q) -> ~ (q == 0)%Q ->
        wd = VNumber (Fin q))
    /\ (p_height (parameters st) = VUndefined
        \/ p_height (parameters st) = VNumber NaN
        \/ (exists q, p_height (parameters st) = VNumber (Fin q) /\ (q == 0)%Q) ->
        ht = VNumber (Fin 10))
    /\ (forall q, p_height (parameters st) = VNumber (Fin q) -> ~ (q == 0)%Q ->
        ht = VNumber (Fin q)).
Proof.
  intros Hw Hi Hb.
  destruct (toggle_creates_poster br second st Hw Hi Hb)
    as (st' & Ht & _ & Hn & _).
  assert (Hzero : forall q, (q == 0)%Q -> Num.truthy (Fin q) = false).
  { intros q Hq. simpl. unfold Qeq in Hq. simpl in Hq.
    unfold Qsign. replace (Qnum q) with 0%Z by lia. reflexivity. }
  assert (Hnz : forall q, ~ (q == 0)%Q -> Num.truthy (Fin q) = true).
  { intros q Hq. simpl. unfold Qsign. apply negb_true_iff, Z.eqb_neq.
    intros Hs. apply Hq. unfold Qeq. simpl.
    apply Z.sgn_null_iff in Hs. lia. }
  exists st', (length (dom st)), (poster_of st),
    (or_ten (p_width (parameters st))), (or_ten (p_height (parameters st))).
  repeat split; auto.
  - intros [Hu|[Hu|(q & Hu & Hq)]]; rewrite Hu; apply or_ten_falsy;
      [reflexivity | reflexivity | by apply Hzero].
  - intros q Hu Hq. rewrite Hu. apply or_ten_truthy. by apply Hnz.
  - intros [Hu|[Hu|(q & Hu & Hq)]]; rewrite Hu; apply or_ten_falsy;
      [reflexivity | reflexivity | by apply Hzero].
  - intros q Hu Hq. rewrite Hu. apply or_ten_truthy. by apply Hnz.
Qed.

Lemma poster_size_defaults_to_ten_witness :
  exists st' h n wd ht,
    toggle Sample.browser (Sample.sec 7) Sample.poster = Ok (Some h) st'
    /\ dom st' !! h = Some n
    /\ n_css n !! 2%nat = Some ("width", (wd, "em"))
    /\ n_css n !! 3%nat = Some ("height", (ht, "em"))
    /\ wd = VNumber (Fin 10)
    /\ ht = VNumber (Fin 10).
Proof.
  destruct (poster_size_defaults_to_ten Sample.browser (Sample.sec 7)
              Sample.poster eq_refl eq_refl eq_refl)
    as (st' & h & n & wd & ht & Ht & Hn & Hw & Hh & Hwd & _ & Hht & _).
  exists st', h, n, wd, ht.
  repeat split; auto.
Defined.

Lemma label_has_text_iff br p :
  label_has_text br p = true
  <-> exists l, p_label p = Some l /\ l <> "" /\ html_text br l <> "".
Proof.
  unfold label_has_text. destruct (p_label p) as [l|].
  - rewrite andb_true_iff, !negb_true_iff, String.eqb_neq, Nat.eqb_neq.
    split.
    + intros [Hl Ht]. exists l. repeat split; auto.
      intros He. by rewrite He in Ht.
    + intros (l' & [= <-] & Hl & Ht). split; [done|].
      by destruct (html_text br l).
  - split; [done|]. by intros (l & Hl & _).
Qed.

(** X12: a button made by [toggle] gets a label node, and [$label] is set to
    it, exactly when the content is [H5P.Nil] or [parameters.label] is a
    non-empty string whose HTML has some text; otherwise no label node is
    made and [$label] keeps what it held, so a label of an earlier button
    stays behind. *)
Theorem button_label_rule (br : Browser) (second : value) (st : State) :
  window_test second st = true ->
  interaction st = None ->
  isButton st = true ->
  exists st' h,
    toggle br second st = Ok (Some h) st'
    /\ (library st = "H5P.Nil"
        \/ (exists l, p_label (parameters st) = Some l
                      /\ l <> "" /\ html_text br l <> "") ->
        exists lb n,
          label st' = Some lb
          /\ dom st !! lb = None
          /\ dom st' !! lb = Some n
          /\ n_class n = ["h5p-interaction-label"]
          /\ n_html n = p_label (parameters st)
          /\ n_parent n = Some h)
    /\ (~ (library st = "H5P.Nil"
           \/ (exists l, p_label (parameters st) = Some l
                         /\ l <> "" /\ html_text br l <> "")) ->
        label st' = label st
        /\ forall k n, dom st' !! k = Some n ->
                       n_class n <> ["h5p-interaction-label"]
                       \/ dom st !! k = Some n).
Proof.
  intros Hw Hi Hb.
  destruct (toggle_creates_button br second st Hw Hi Hb)
    as (st' & Ht & _ & Hn & Hkeep & _ & _ & _ & _ & _ & Hl & Hnode).
  assert (Hcond : String.eqb (library st) "H5P.Nil"
                  || label_has_text br (parameters st) = true
                  <-> (library st = "H5P.Nil"
                       \/ exists l, p_label (parameters st) = Some l
                                    /\ l <> "" /\ html_text br l <> "")).
  { by rewrite orb_true_iff, String.eqb_eq, label_has_text_iff. }
  exists st', (length (dom st)). split; [exact Ht|]. split.
  - intros Hc. apply Hcond in Hc. rewrite Hc in Hl.
    eexists _, _. split; [exact Hl|]. split; [apply lookup_ge_None; lia|].
    split; [exact (Hnode Hc)|]. by repeat split.
  - intros Hc. rewrite <- Hcond in Hc. apply not_true_is_false in Hc.
    rewrite Hc in Hl. split; [exact Hl|].
    intros k n Hk.
    destruct (decide (k < length (dom st))) as [Hlt|Hge].
    + right. by rewrite <- Hkeep.
    + left. revert Hk. clear Hkeep Hn Hnode Hl.
      unfold window_test in Hw. rewrite negb_true_iff in Hw.
      unfold toggle, bind, get in Ht. rewrite Hw, Hi in Ht. simpl in Ht.
      rewrite Hb in Ht. clear Hw. revert Ht. run. rewrite Hc. simpl.
      intros [= <-]. simpl. rewrite <- !app_assoc. simpl.
      rewrite lookup_app_r by lia.
      destruct (k - length (dom st)) as [|[|j]]; simpl; intros [= <-];
        discriminate.
Qed.

Lemma button_label_rule_witness :
  exists st' h,
    toggle Sample.browser (Sample.sec 7) Sample.button = Ok (Some h) st'
    /\ exists lb n,
         label st' = Some lb
         /\ dom Sample.button !! lb = None
         /\ dom st' !! lb = Some n
         /\ n_class n = ["h5p-interaction-label"]
         /\ n_html n = p_label (parameters Sample.button)
         /\ n_parent n = Some h.
Proof.
  destruct (button_label_rule Sample.browser (Sample.sec 7) Sample.button
              eq_refl eq_refl eq_refl) as (st' & h & Ht & Hyes & _).
  exists st', h. split; [exact Ht|]. apply Hyes.
  right. exists "Read me". repeat split; discriminate.
Defined.

(** ** The next tick *)

Lemma filter_idem {A} (P : A -> Prop) `{forall x, Decision (P x)} (l : list A) :
  filter P (filter P l) = filter P l.
Proof.
  induction l as [|x l IH]; [done|].
  rewrite filter_cons. destruct (decide (P x)) as [Hx|Hx]; [|done].
  rewrite filter_cons. destruct (decide (P x)); [by rewrite IH|done].
Qed.

Lemma removeClass_idem c n :
  node_removeClass c (node_removeClass c n) = node_removeClass c n.
Proof. unfold node_removeClass. simpl. by rewrite filter_idem. Qed.

Lemma alter_idem {A} (f : A -> A) (h : nat) (d : list A) :
  (forall x, f (f x) = f x) -> alter f h (alter f h d) = alter f h d.
Proof.
  intros Hf. apply list_eq. intros k.
  destruct (decide (h = k)) as [->|Hne].
  - rewrite !list_lookup_alter_eq. destruct (d !! k); simpl; by rewrite ?Hf.
  - by rewrite !list_lookup_alter_ne.
Qed.

(** What running a list of callbacks does to a state. *)
Lemma run_tasks_spec ts s :
  let s' := foldl (fun s t => final_state (run_task t s)) s ts in
  interaction s' = interaction s
  /\ instance s' = instance s
  /\ label s' = label s
  /\ parameters s' = parameters s
  /\ displayed s' = displayed s
  /\ timers s' = timers s
  /\ resized s' =
       resized s ++
       match instance s with
       | Some i => replicate (length (filter (fun t => t = ResizeInstance) ts)) i
       | None => []
       end
  /\ dom s' =
       match interaction s with
       | Some h =>
           if bool_decide (TransitionIn ∈ ts)
           then alter (node_removeClass "h5p-hidden") h (dom s)
           else dom s
       | None => dom s
       end.
Proof.
  revert s. induction ts as [|t ts IH]; intros s; simpl.
  - repeat split; auto.
    + by destruct (instance s); rewrite app_nil_r.
    + by destruct (interaction s).
  - set (s1 := final_state (run_task t s)).
    destruct (IH s1) as (H1 & H2 & H3 & H4 & H5 & H6 & H7 & H8).
    rewrite H1, H2, H3, H4, H5, H6, H7, H8. clear IH H1 H2 H3 H4 H5 H6 H7 H8.
    subst s1. destruct t; simpl.
    + (* TransitionIn *)
      unfold bind, get, update_node, modify, throw.
      destruct (interaction s) as [h|] eqn:Hi; simpl; rewrite ?Hi;
        repeat split; auto.
      destruct (bool_decide (TransitionIn ∈ ts)); [|done].
      apply alter_idem, removeClass_idem.
    + (* ResizeInstance *)
      assert (Hiff : bool_decide (TransitionIn ∈ ResizeInstance :: ts)
                     = bool_decide (TransitionIn ∈ ts)).
      { apply bool_decide_ext. rewrite elem_of_cons.
        split; [intros [Hd|]; [discriminate|done] | auto]. }
      rewrite Hiff.
      unfold trigger_resize, bind, get, modify, throw.
      destruct (instance s) as [i|] eqn:Hin; simpl; rewrite ?Hin;
        repeat split; auto.
      by rewrite <- app_assoc.
Qed.

(** X13: a button made by [toggle] carries [h5p-hidden] until the next
    tick, which takes the class off and leaves no callback pending; if the
    button is removed before that tick, its callback finds no element and
    the tick leaves the DOM as it is. *)
Theorem button_revealed_on_next_tick (br : Browser) (second : value)
    (st : State) :
  window_test second st = true ->
  interaction st = None ->
  isButton st = true ->
  exists st1 h,
    toggle br second st = Ok (Some h) st1
    /\ hasClass "h5p-hidden" h st1 = true
    /\ hasClass "h5p-hidden" h (tick st1) = false
    /\ interaction (tick st1) = Some h
    /\ timers (tick st1) = []
    /\ forall br' u,
         dom (tick (final_state (remove br' u st1)))
         = dom (final_state (remove br' u st1)).
Proof.
  intros Hw Hi Hb.
  destruct (toggle_creates_button br second st Hw Hi Hb)
    as (st1 & Ht & Hi1 & Hn & _ & _ & _ & _ & _ & Hti & _).
  exists st1, (length (dom st)). split; [exact Ht|].
  pose proof (run_tasks_spec (timers st1) (with_timers [] st1))
    as (T1 & _ & _ & _ & _ & T6 & _ & T8).
  fold (tick st1) in T1, T6, T8. simpl in T1, T6, T8.
  rewrite Hi1 in T8.
  rewrite bool_decide_eq_true_2 in T8
    by (rewrite Hti; apply elem_of_app; right; apply list_elem_of_here).
  repeat split.
  - unfold hasClass. rewrite Hn. simpl. apply bool_decide_eq_true.
    do 2 apply list_elem_of_further. apply list_elem_of_here.
  - unfold hasClass. rewrite T8, list_lookup_alter_eq, Hn. simpl.
    apply bool_decide_eq_false.
    exact (removeClass_not_in "h5p-hidden" (button_of st)).
  - by rewrite T1.
  - exact T6.
  - intros br' u.
    destruct (remove_ok br' u st1) as (st2 & Hr & Hi2 & _).
    rewrite Hr. simpl.
    pose proof (run_tasks_spec (timers st2) (with_timers [] st2))
      as (_ & _ & _ & _ & _ & _ & _ & R8).
    fold (tick st2) in R8. simpl in R8. by rewrite Hi2 in R8.
Qed.

Lemma button_revealed_on_next_tick_witness :
  exists st1 h,
    toggle Sample.browser (Sample.sec 7) Sample.button = Ok (Some h) st1
    /\ hasClass "h5p-hidden" h st1 = true
    /\ hasClass "h5p-hidden" h (tick st1) = false
    /\ interaction (tick st1) = Some h
    /\ timers (tick st1) = []
    /\ forall br' u,
         dom (tick (final_state (remove br' u st1)))
         = dom (final_state (remove br' u st1)).
Proof.
  exact (button_revealed_on_next_tick Sample.browser (Sample.sec 7)
           Sample.button eq_refl eq_refl eq_refl).
Defined.

(** X14: at the next tick every pending resize callback notifies the
    instance the closure holds at that moment, whichever poster scheduled
    it, and none is sent when there is no instance; the tick leaves no
    callback pending and the handles as they are. *)
Theorem tick_resizes_current_instance (st : State) :
  resized (tick st)
  = resized st ++
    match instance st with
    | Some i => replicate (pending ResizeInstance st) i
    | None => []
    end
  /\ timers (tick st) = []
  /\ instance (tick st) = instance st
  /\ interaction (tick st) = interaction st
  /\ label (tick st) = label st
  /\ parameters (tick st) = parameters st.
Proof.
  pose proof (run_tasks_spec (timers st) (with_timers [] st))
    as (T1 & T2 & T3 & T4 & _ & T6 & T7 & _).
  fold (tick st) in T1, T2, T3, T4, T6, T7.
  repeat split; auto.
Qed.

(** ** Placing the label *)

Lemma alter_alter {A} (f g : A -> A) (h : nat) (d : list A) :
  alter f h (alter g h d) = alter (fun x => f (g x)) h d.
Proof.
  apply list_eq. intros k. destruct (decide (h = k)) as [->|Hne].
  - rewrite !list_lookup_alter_eq. by destruct (d !! k).
  - by rewrite !list_lookup_alter_ne.
Qed.

Lemma alter_ext_all {A} (f g : A -> A) (h : nat) (d : list A) :
  (forall x, f x = g x) -> alter f h d = alter g h d.
Proof.
  intros Hfg. apply list_eq. intros k. destruct (decide (h = k)) as [->|Hne].
  - rewrite !list_lookup_alter_eq. destruct (d !! k); simpl; by rewrite ?Hfg.
  - by rewrite !list_lookup_alter_ne.
Qed.

Lemma filter_app_singleton_out (c : string) (l : list string) :
  filter (fun c' => c' <> c) (filter (fun c' => c' <> c) l ++ [c])
  = filter (fun c' => c' <> c) l.
Proof.
  rewrite filter_app, filter_idem. rewrite filter_cons.
  destruct (decide (c <> c)) as [Hne|_]; [done|].
  by rewrite filter_nil, app_nil_r.
Qed.

Lemma removeClass_addClass_removeClass c n :
  node_removeClass c (node_addClass c (node_removeClass c n))
  = node_removeClass c n.
Proof.
  unfold node_removeClass, node_addClass. simpl.
  rewrite bool_decide_eq_false_2.
  - by rewrite filter_app_singleton_out.
  - rewrite list_elem_of_filter. intros [Hne _]. by apply Hne.
Qed.

Lemma with_dom_twice d d' st : with_dom d (with_dom d' st) = with_dom d st.
Proof. reflexivity. Qed.

Lemma positionLabel_eq br width st :
  positionLabel br width st
  = if isButton st then
      match label st with
      | None => Ok tt st
      | Some l =>
          match interaction st with
          | None =>
              Throw TypeError
                (with_dom (alter (node_removeClass "h5p-left-label") l (dom st))
                   st)
          | Some h =>
              Ok tt
                (with_dom
                   (alter
                      (if Num.gt
                            (Dbl.add (Dbl.add (Num.parseInt (css_left br h))
                                              (position_left br l))
                                     (outerWidth br l))
                            (to_number width)
                       then fun n => node_addClass "h5p-left-label"
                                       (node_removeClass "h5p-left-label" n)
                       else node_removeClass "h5p-left-label")
                      l (dom st))
                   st)
          end
      end
    else Ok tt st.
Proof.
  unfold positionLabel, bind, get.
  destruct (isButton st); simpl; [|done].
  destruct (label st) as [l|]; simpl; [|done].
  unfold update_node, modify, throw, when, ret. simpl.
  destruct (interaction st) as [h|]; simpl; [|done].
  destruct (Num.gt _ _); simpl; [|done].
  by rewrite alter_alter.
Qed.

(** X15: [positionLabel] is idempotent: called again with the same width
    and the same measurements it gives the same result, normal or thrown,
    and the same state. *)
Theorem positionLabel_idempotent (br : Browser) (width : value) (st : State) :
  positionLabel br width (final_state (positionLabel br width st))
  = positionLabel br width st.
Proof.
  rewrite (positionLabel_eq br width st).
  destruct (isButton st) eqn:Hb; simpl;
    [|by rewrite positionLabel_eq, Hb].
  destruct (label st) as [l|] eqn:Hl; simpl;
    [|by rewrite positionLabel_eq, Hb, Hl].
  destruct (interaction st) as [h|] eqn:Hi; simpl.
  - rewrite positionLabel_eq.
    change (isButton (with_dom _ _)) with (isButton st).
    cbn [label interaction dom with_dom]. rewrite Hb, Hl, Hi.
    rewrite with_dom_twice. do 2 f_equal.
    rewrite alter_alter. apply alter_ext_all. intros n.
    destruct (Num.gt _ _).
    + by rewrite removeClass_addClass_removeClass.
    + by rewrite removeClass_idem.
  - rewrite positionLabel_eq.
    change (isButton (with_dom _ _)) with (isButton st).
    cbn [label interaction dom with_dom]. rewrite Hb, Hl, Hi.
    rewrite with_dom_twice. do 2 f_equal. apply alter_idem, removeClass_idem.
Qed.

(** X16: whatever its outcome, [positionLabel] changes nothing but the
    class list of the label node, and of that only whether it holds
    [h5p-left-label]: every handle, the parameters, the events sent and
    every other node stay as they were. *)
Theorem positionLabel_touches_label_class_only (br : Browser) (width : value)
    (st : State) :
  let st' := final_state (positionLabel br width st) in
  parameters st' = parameters st
  /\ interaction st' = interaction st
  /\ label st' = label st
  /\ instance st' = instance st
  /\ displayed st' = displayed st
  /\ resized st' = resized st
  /\ timers st' = timers st
  /\ length (dom st') = length (dom st)
  /\ forall k n,
       dom st !! k = Some n ->
       exists n',
         dom st' !! k = Some n'
         /\ (label st <> Some k -> n' = n)
         /\ n_tag n' = n_tag n /\ n_css n' = n_css n
         /\ n_html n' = n_html n /\ n_parent n' = n_parent n
         /\ n_removed n' = n_removed n
         /\ forall c, c <> "h5p-left-label" ->
                      (c ∈ n_class n' <-> c ∈ n_class n).
Proof.
  intros st'.
  assert (Hrm : forall n c, c <> "h5p-left-label" ->
            c ∈ n_class (node_removeClass "h5p-left-label" n) <-> c ∈ n_class n).
  { intros n c Hc. simpl. rewrite list_elem_of_filter. tauto. }
  assert (Hadd : forall n c, c <> "h5p-left-label" ->
            c ∈ n_class (node_addClass "h5p-left-label" n) <-> c ∈ n_class n).
  { intros n c Hc. simpl. destruct (bool_decide _); [done|].
    rewrite elem_of_app, list_elem_of_singleton. tauto. }
  assert (Hcase :
    st' = st
    \/ (exists l f, label st = Some l
          /\ st' = with_dom (alter f l (dom st)) st
          /\ forall n, n_tag (f n) = n_tag n /\ n_css (f n) = n_css n
               /\ n_html (f n) = n_html n /\ n_parent (f n) = n_parent n
               /\ n_removed (f n) = n_removed n
               /\ forall c, c <> "h5p-left-label" ->
                            (c ∈ n_class (f n) <-> c ∈ n_class n))).
  { subst st'. unfold positionLabel, bind, get.
    destruct (isButton st); simpl; [|by left].
    destruct (label st) as [l|]; simpl; [|by left].
    unfold update_node, modify, throw, when, ret. simpl.
    right. destruct (interaction st) as [h|]; simpl.
    - destruct (Num.gt _ _); simpl.
      + exists l, (fun n => node_addClass "h5p-left-label"
                              (node_removeClass "h5p-left-label" n)).
        split; [done|]. split; [by rewrite alter_alter|].
        intros n. repeat split; intros Hc;
          [by apply Hrm, Hadd | by apply Hadd, Hrm].
      + exists l, (node_removeClass "h5p-left-label").
        split; [done|]. split; [done|].
        intros n. repeat split; by apply Hrm.
    - exists l, (node_removeClass "h5p-left-label").
      split; [done|]. split; [done|].
      intros n. repeat split; by apply Hrm. }
  destruct Hcase as [->|(l & f & Hl & -> & Hf)].
  - repeat split; auto. intros k n Hn. exists n. by repeat split.
  - simpl. repeat split; auto; [apply length_alter|].
    intros k n Hn. destruct (decide (l = k)) as [->|Hne].
    + exists (f n). rewrite list_lookup_alter_eq, Hn.
      destruct (Hf n) as (H1 & H2 & H3 & H4 & H5 & H6).
      split; [done|]. split; [intros Hne; congruence|].
      repeat (split; [assumption|]). exact H6.
    + exists n. rewrite list_lookup_alter_ne by done. by repeat split.
Qed.

(** ** The constructor *)

Lemma append_cons (c : ascii) (a b : string) :
  (String c a ++ b)%string = String c (a ++ b)%string.
Proof. reflexivity. Qed.

Lemma append_empty (b : string) : ("" ++ b)%string = b.
Proof. reflexivity. Qed.

Lemma append_assoc (a b c : string) :
  ((a ++ b) ++ c)%string = (a ++ b ++ c)%string.
Proof.
  induction a as [|x a IH]; [done|]. by rewrite !append_cons, IH.
Qed.

Lemma split_on_absent (sep : ascii) (a : string) :
  has_char sep a = false -> split_on sep a = [a].
Proof.
  induction a as [|c a IH]; simpl; [done|].
  intros Hc. apply orb_false_iff in Hc as [Hc Ha].
  by rewrite Hc, (IH Ha).
Qed.

Lemma split_on_first (sep : ascii) (a b : string) :
  has_char sep a = false ->
  split_on sep (a ++ String sep b)%string = a :: split_on sep b.
Proof.
  induction a as [|c a IH].
  - intros _. rewrite append_empty. simpl. by rewrite Ascii.eqb_refl.
  - rewrite append_cons. simpl.
    intros Hc. apply orb_false_iff in Hc as [Hc Ha].
    by rewrite Hc, (IH Ha).
Qed.

Lemma has_char_app (c : ascii) (a b : string) :
  has_char c (a ++ b)%string = has_char c a || has_char c b.
Proof.
  induction a as [|c' a IH]; [done|].
  rewrite append_cons. simpl. by rewrite IH, orb_assoc.
Qed.

Lemma toLowerCase_app (a b : string) :
  toLowerCase (a ++ b)%string = (toLowerCase a ++ toLowerCase b)%string.
Proof.
  induction a as [|c a IH]; [done|].
  rewrite append_cons. simpl. by rewrite IH.
Qed.

Lemma lower_ascii_dot (c : ascii) :
  Ascii.eqb (lower_ascii c) "." = Ascii.eqb c ".".
Proof. by destruct c as [[] [] [] [] [] [] [] []]. Qed.

Lemma has_dot_toLowerCase (s : string) :
  has_char "." (toLowerCase s) = has_char "." s.
Proof.
  induction s as [|c s IH]; simpl; [done|]. by rewrite lower_ascii_dot, IH.
Qed.

(** X17: for a library named [Namespace.Name version] and no [className]
    given, the constructor takes [Namespace.Name] as the library and
    [namespace-name-interaction], in lower case, as the class; a
    [className], when given, is used as it is. *)
Theorem constructor_derives_class (ns name version lbl : string)
    (p : Params) :
  has_char " " ns = false -> has_char "." ns = false ->
  has_char " " name = false -> has_char "." name = false ->
  a_library (p_action p) = (ns ++ "." ++ name ++ " " ++ version)%string ->
  library (Interaction p lbl) = (ns ++ "." ++ name)%string
  /\ (p_className p = None ->
      classes (Interaction p lbl)
      = (toLowerCase ns ++ "-" ++ toLowerCase name ++ "-interaction")%string)
  /\ (forall c, p_className p = Some c -> classes (Interaction p lbl) = c).
Proof.
  intros Hns1 Hns2 Hn1 Hn2 Hlib.
  assert (Hl : library_of (p_action p) = (ns ++ "." ++ name)%string).
  { unfold library_of. rewrite Hlib.
    replace (ns ++ "." ++ name ++ " " ++ version)%string
      with ((ns ++ "." ++ name) ++ String " " version)%string.
    - rewrite split_on_first; [done|].
      rewrite !has_char_app. simpl. by rewrite Hns1, Hn1.
    - by rewrite !append_assoc. }
  split; [exact Hl|]. split.
  - intros Hc. simpl. unfold classes_of. rewrite Hc, Hl.
    rewrite toLowerCase_app. simpl.
    change (String (lower_ascii ".") (toLowerCase name))
      with (String "." (toLowerCase name)).
    rewrite split_on_first by (by rewrite has_dot_toLowerCase).
    rewrite split_on_absent by (by rewrite has_dot_toLowerCase).
    reflexivity.
  - intros c Hc. simpl. unfold classes_of. by rewrite Hc.
Qed.

Lemma constructor_derives_class_witness :
  library Sample.button = "H5P.Text"
  /\ classes Sample.button = "h5p-text-interaction".
Proof.
  destruct (constructor_derives_class "H5P" "Text" "1.1" "Interaction"
              (Sample.params "H5P.Text 1.1" None (Some "Read me"))
              eq_refl eq_refl eq_refl eq_refl eq_refl) as (Hl & Hc & _).
  split; [exact Hl | exact (Hc eq_refl)].
Defined.

(** X18: a library name without a dot still gets a class: the missing
    second part prints as [undefined], giving [name-undefined-interaction];
    and a library string without a version is taken whole. *)
Theorem constructor_class_without_dot (name lbl : string) (p : Params) :
  has_char " " name = false -> has_char "." name = false ->
  (a_library (p_action p) = name
   \/ exists version, a_library (p_action p) = (name ++ " " ++ version)%string) ->
  p_className p = None ->
  library (Interaction p lbl) = name
  /\ classes (Interaction p lbl)
     = (toLowerCase name ++ "-undefined-interaction")%string.
Proof.
  intros Hn1 Hn2 Hlib Hc.
  assert (Hl : library_of (p_action p) = name).
  { unfold library_of. destruct Hlib as [->|[version ->]].
    - by rewrite split_on_absent.
    - change (name ++ " " ++ version)%string
        with (name ++ String " " version)%string.
      by rewrite split_on_first. }
  split; [exact Hl|].
  simpl. unfold classes_of. rewrite Hc, Hl.
  rewrite split_on_absent by (by rewrite has_dot_toLowerCase).
  reflexivity.
Qed.

Lemma constructor_class_without_dot_witness :
  library (Interaction (Sample.params "Quiz 2.0" None None) "Interaction")
  = "Quiz"
  /\ classes (Interaction (Sample.params "Quiz 2.0" None None) "Interaction")
     = "quiz-undefined-interaction".
Proof.
  apply (constructor_class_without_dot "Quiz" "Interaction"
           (Sample.params "Quiz 2.0" None None) eq_refl eq_refl);
    [right; by exists "2.0" | reflexivity].
Defined.

(** ** More on the image fitting *)

Lemma mul_fin (a b : Q) : Num.mul (Fin a) (Fin b) = Fin (Qred (a * b)).
Proof. reflexivity. Qed.

Lemma gt_fin (a b : Q) : Num.gt (Fin a) (Fin b) = Qltb b a.
Proof. reflexivity. Qed.

(** The fitted size for finite inputs, as rationals: [W] and [H] are the
    size in em. *)
Lemma fit_cases (mw mh W H : Q) :
  (0 <= mw)%Q -> (0 <= mh)%Q ->
  exists ow oh,
    fit_width (mkSize (Fin mw) (Fin mh))
      (fit_height (mkSize (Fin mw) (Fin mh)) (mkSize (Fin W) (Fin H)))
    = mkSize (Fin ow) (Fin oh)
    /\ ((H <= mh /\ W <= mw /\ ow == W /\ oh == H)
        \/ (H <= mh /\ mw < W /\ ow == mw /\ oh * W == H * mw)
        \/ (mh < H /\ ow * H == W * mh /\ ow <= mw /\ oh == mh)
        \/ (mh < H /\ mw * H < W * mh /\ ow == mw /\ oh * W == H * mw))%Q.
Proof.
  intros Hmw Hmh.
  unfold fit_height.
  cbn [num_gt number_arith sz_height sz_width num_mul num_div].
  rewrite gt_fin. destruct (Qltb mh H) eqn:Hh.
  - apply Qltb_lt in Hh. assert (HHpos : (0 < H)%Q) by lra.
    rewrite mul_fin, (div_fin _ H HHpos).
    set (W1 := Qred (Qred (W * mh) / H)).
    assert (HW1 : (W1 * H == W * mh)%Q).
    { unfold W1. rewrite !Qred_correct. field. lra. }
    unfold fit_width.
    cbn [num_gt number_arith sz_height sz_width num_mul num_div].
    rewrite gt_fin. destruct (Qltb mw W1) eqn:Hw.
    + apply Qltb_lt in Hw. assert (HW1pos : (0 < W1)%Q) by lra.
      rewrite mul_fin, (div_fin _ W1 HW1pos).
      set (oh := Qred (Qred (mh * mw) / W1)).
      assert (Hoh : (oh * W1 == mh * mw)%Q).
      { unfold oh. rewrite !Qred_correct. field. lra. }
      assert (Hmhpos : (0 < mh)%Q).
      { destruct (Qlt_le_dec 0 mh) as [Hlt|Hle]; [exact Hlt|].
        assert (Hz : (mh == 0)%Q) by lra.
        assert (Hp : (W * mh == 0)%Q) by (rewrite Hz; ring).
        exfalso. nra. }
      exists mw, oh. split; [reflexivity|]. right. right. right.
      split; [lra|]. split; [nra|]. split; [reflexivity|].
      assert (E : (mh * (oh * W) == mh * (H * mw))%Q).
      { transitivity (oh * (W * mh))%Q; [ring|]. rewrite <- HW1.
        transitivity ((oh * W1) * H)%Q; [ring|]. rewrite Hoh. ring. }
      apply (Qmult_inj_l _ _ mh); [lra | exact E].
    + apply Qltb_ge in Hw.
      exists W1, mh. split; [reflexivity|]. right. right. left.
      split; [lra|]. split; [lra|]. split; [lra|reflexivity].
  - apply Qltb_ge in Hh.
    unfold fit_width.
    cbn [num_gt number_arith sz_height sz_width num_mul num_div].
    rewrite gt_fin. destruct (Qltb mw W) eqn:Hw.
    + apply Qltb_lt in Hw. assert (HWpos : (0 < W)%Q) by lra.
      rewrite mul_fin, (div_fin _ W HWpos).
      set (oh := Qred (Qred (H * mw) / W)).
      assert (Hoh : (oh * W == H * mw)%Q).
      { unfold oh. rewrite !Qred_correct. field. lra. }
      exists mw, oh. split; [reflexivity|]. right. left.
      split; [lra|]. split; [lra|]. split; [reflexivity|lra].
    + apply Qltb_ge in Hw.
      exists W, H. split; [reflexivity|]. left.
      repeat split; try lra; reflexivity.
Qed.

(** X19: for any image of positive natural size and any positive [max],
    not only one that overflows both ways, the fitted size is positive,
    within [max] in both directions, never larger than the image's own size
    in em, and has the image's proportions; an image that already fits is
    only converted to em. *)
Theorem resizeImage_never_enlarges (fs : number) (mw mh w h : Q) :
  (0 < mw)%Q -> (0 < mh)%Q -> (0 < w)%Q -> (0 < h)%Q ->
  exists ow oh,
    dialog_size
      (resizeImage fs (mkSize (Fin mw) (Fin mh)) (mkSize (Fin w) (Fin h)))
    = mkSize (Fin ow) (Fin oh)
    /\ (0 < ow /\ 0 < oh)%Q
    /\ (ow <= mw /\ oh <= mh)%Q
    /\ (ow <= w / 16 /\ oh <= h / 16)%Q
    /\ (ow * h == oh * w)%Q
    /\ ((w / 16 <= mw)%Q -> (h / 16 <= mh)%Q ->
        (ow == w / 16 /\ oh == h / 16)%Q).
Proof.
  intros Hmw Hmh Hw Hh.
  change (dialog_size
            (resizeImage fs (mkSize (Fin mw) (Fin mh)) (mkSize (Fin w) (Fin h))))
    with (fit_width (mkSize (Fin mw) (Fin mh))
            (fit_height (mkSize (Fin mw) (Fin mh))
               (to_em (mkSize (Fin w) (Fin h))))).
  rewrite to_em_fin.
  set (W := Qred (w / 16)). set (H := Qred (h / 16)).
  assert (HW : (W == w / 16)%Q) by apply Qred_correct.
  assert (HH : (H == h / 16)%Q) by apply Qred_correct.
  assert (HWeq : (w == 16 * W)%Q) by (rewrite HW; field).
  assert (HHeq : (h == 16 * H)%Q) by (rewrite HH; field).
  assert (HWpos : (0 < W)%Q) by lra.
  assert (HHpos : (0 < H)%Q) by lra.
  destruct (fit_cases mw mh W H) as (ow & oh & Hfit & Hcases); [lra|lra|].
  exists ow, oh. split; [exact Hfit|].
  rewrite <- HW, <- HH.
  destruct Hcases as [(A1 & A2 & A3 & A4)|[(A1 & A2 & A3 & A4)
                     |[(A1 & A2 & A3 & A4)|(A1 & A2 & A3 & A4)]]].
  - repeat split; try lra; rewrite ?HWeq, ?HHeq; nra.
  - assert (0 < oh)%Q by nra. assert (oh <= H)%Q by nra.
    repeat split; try lra; rewrite ?HWeq, ?HHeq; nra.
  - assert (0 < ow)%Q by nra. assert (ow <= W)%Q by nra.
    repeat split; try lra; rewrite ?HWeq, ?HHeq; nra.
  - assert (0 < oh)%Q by nra. assert (oh <= mh)%Q by nra.
    assert (oh <= H)%Q by nra.
    repeat split; try lra; rewrite ?HWeq, ?HHeq; nra.
Qed.

Lemma resizeImage_never_enlarges_witness :
  exists ow oh,
    dialog_size
      (resizeImage (Fin 16) (mkSize (Fin 40) (Fin 30))
         (mkSize (Fin 320) (Fin 800)))
    = mkSize (Fin ow) (Fin oh)
    /\ (0 < ow /\ 0 < oh)%Q
    /\ (ow <= 40 /\ oh <= 30)%Q
    /\ (ow <= 320 / 16 /\ oh <= 800 / 16)%Q
    /\ (ow * 800 == oh * 320)%Q.
Proof.
  destruct (resizeImage_never_enlarges (Fin 16) 40 30 320 800)
    as (ow & oh & H1 & H2 & H3 & H4 & H5 & _); try reflexivity.
  exists ow, oh. repeat split; tauto.
Defined.

Lemma dialog_size_finite (fs : number) (mw mh w h : Q) :
  (0 <= mw)%Q -> (0 <= mh)%Q ->
  exists ow oh,
    dialog_size
      (resizeImage fs (mkSize (Fin mw) (Fin mh)) (mkSize (Fin w) (Fin h)))
    = mkSize (Fin ow) (Fin oh).
Proof.
  intros Hmw Hmh.
  change (dialog_size
            (resizeImage fs (mkSize (Fin mw) (Fin mh)) (mkSize (Fin w) (Fin h))))
    with (fit_width (mkSize (Fin mw) (Fin mh))
            (fit_height (mkSize (Fin mw) (Fin mh))
               (to_em (mkSize (Fin w) (Fin h))))).
  rewrite to_em_fin.
  destruct (fit_cases mw mh (Qred (w / 16)) (Qred (h / 16)) Hmw Hmh)
    as (ow & oh & Hfit & _).
  eauto.
Qed.

(** X20: for finite sizes and a [max] that is not negative, [resizeImage]
    never divides by zero: the size it hands to the dialog is a pair of
    finite numbers, also for an image of zero or negative natural size. *)
Theorem resizeImage_stays_finite (fs : number) (mw mh w h : Q) :
  (0 <= mw)%Q -> (0 <= mh)%Q ->
  exists ow oh,
    dialog_size
      (resizeImage fs (mkSize (Fin mw) (Fin mh)) (mkSize (Fin w) (Fin h)))
    = mkSize (Fin ow) (Fin oh).
Proof. apply dialog_size_finite. Qed.

Lemma resizeImage_stays_finite_witness :
  exists ow oh,
    dialog_size
      (resizeImage (Fin 16) (mkSize (Fin 40) (Fin 0))
         (mkSize (Fin 1600) (Fin 0)))
    = mkSize (Fin ow) (Fin oh).
Proof.
  apply (resizeImage_stays_finite (Fin 16) 40 0 1600 0); discriminate.
Defined.

(** X21: over exact arithmetic, the CSS size [resizeImage] sets on the
    image is the fitted size expressed in the image's own em: multiplied by
    the image's font size it gives the same pixels as the fitted size at
    the 16px baseline; at a 16px font the two sizes agree. *)
Theorem resizeImage_css_same_pixels (fs mw mh w h : Q) :
  (0 < fs)%Q -> (0 <= mw)%Q -> (0 <= mh)%Q ->
  exists cw ch ow oh,
    @resizeImage number number_arith (Fin fs) (mkSize (Fin mw) (Fin mh))
      (mkSize (Fin w) (Fin h))
    = {| img_css := mkSize (Fin cw) (Fin ch);
         dialog_size := mkSize (Fin ow) (Fin oh) |}
    /\ (cw * fs == ow * 16)%Q
    /\ (ch * fs == oh * 16)%Q
    /\ ((fs == 16)%Q -> (cw == ow /\ ch == oh)%Q).
Proof.
  intros Hfs Hmw Hmh.
  destruct (dialog_size_finite (Fin fs) mw mh w h Hmw Hmh)
    as (ow & oh & Hd).
  assert (Hcss : img_css (resizeImage (Fin fs) (mkSize (Fin mw) (Fin mh))
                            (mkSize (Fin w) (Fin h)))
                 = mkSize (Num.mul (Fin ow) (Num.div (Num.of_Z 16) (Fin fs)))
                          (Num.mul (Fin oh) (Num.div (Num.of_Z 16) (Fin fs)))).
  { change (img_css (resizeImage (Fin fs) (mkSize (Fin mw) (Fin mh))
                       (mkSize (Fin w) (Fin h))))
      with (let d := dialog_size
                       (resizeImage (Fin fs) (mkSize (Fin mw) (Fin mh))
                          (mkSize (Fin w) (Fin h))) in
            mkSize (Num.mul (sz_width d) (Num.div (Num.of_Z 16) (Fin fs)))
                   (Num.mul (sz_height d) (Num.div (Num.of_Z 16) (Fin fs)))).
    by rewrite Hd. }
  unfold Num.of_Z in Hcss. rewrite (div_fin _ fs Hfs), !mul_fin in Hcss.
  set (r := Qred (inject_Z 16 / fs)) in Hcss.
  assert (Hr : (r * fs == 16)%Q).
  { unfold r. rewrite Qred_correct. change (inject_Z 16) with 16%Q. field. lra. }
  exists (Qred (ow * r)), (Qred (oh * r)), ow, oh. split.
  - destruct (resizeImage _ _ _) as [c d]. simpl in *. by rewrite Hcss, Hd.
  - rewrite !Qred_correct.
    split; [|split].
    + transitivity (ow * (r * fs))%Q; [ring|]. rewrite Hr. ring.
    + transitivity (oh * (r * fs))%Q; [ring|]. rewrite Hr. ring.
    + intros Hbase.
      assert (Hr1 : (r == 1)%Q)
        by (apply (Qmult_inj_r _ _ fs); [lra|]; rewrite Hr; lra).
      split; rewrite Hr1; ring.
Qed.

Lemma resizeImage_css_same_pixels_witness :
  exists cw ch ow oh,
    @resizeImage number number_arith (Fin 20) (mkSize (Fin 40) (Fin 30))
      (mkSize (Fin 1600) (Fin 900))
    = {| img_css := mkSize (Fin cw) (Fin ch);
         dialog_size := mkSize (Fin ow) (Fin oh) |}
    /\ (cw * 20 == ow * 16)%Q
    /\ (ch * 20 == oh * 16)%Q.
Proof.
  destruct (resizeImage_css_same_pixels 20 40 30 1600 900)
    as (cw & ch & ow & oh & H1 & H2 & H3 & _);
    [reflexivity | discriminate | discriminate |].
  exists cw, ch, ow, oh. auto.
Defined.

(** ** Opening the dialog *)

(** X22: [openDialog] opens the dialog first, with a node and a runnable
    made for it.  For an image whose [action.params.file] is absent it then
    throws: the dialog is open, but it is not positioned and the runnable's
    resize is never asked for.  In every other case it returns normally and
    asks for the runnable's resize last, on the next tick; in between it
    positions the dialog at [$interaction] exactly once, except for a
    summary or blanks, whose dialog is not positioned at all; and it listens
    to the runnable's resizes for a summary only. *)
Theorem openDialog_positions_once (host : DialogHost)
    (file : option ImageFile) (st : State) :
  exists effects out,
    openDialog host file st = (effects, out)
    /\ head effects = Some (DialogOpen (length (dom st)))
    /\ final_state out = opened st
    /\ (forall a sz, DialogPosition a sz ∈ effects -> a = interaction st)
    /\ (library st = "H5P.Image" /\ file = None ->
        out = Throw TypeError (opened st)
        /\ effects = [DialogOpen (length (dom st))])
    /\ (library st <> "H5P.Image" \/ is_Some file ->
        out = Ok tt (opened st)
        /\ last effects = Some (LaterResize (length (runnables st)))
        /\ length (filter (fun e => is_position e = true) effects)
           = (if String.eqb (library st) "H5P.Summary"
                 || String.eqb (library st) "H5P.Blanks" then 0 else 1)
        /\ (forall i, OnResize i ∈ effects
                      <-> library st = "H5P.Summary"
                          /\ i = length (runnables st))).
Proof.
  rewrite openDialog_run.
  destruct (String.eqb_spec (library st) "H5P.Image") as [Him|Him].
  - destruct file as [f|].
    + do 2 eexists. split; [reflexivity|]. split; [reflexivity|].
      split; [reflexivity|]. rewrite Him.
      destruct (truthy (file_width f) && truthy (file_height f)); simpl;
        (split;
          [intros a sz Hin; repeat (apply elem_of_cons in Hin as [Hin|Hin];
             [by inversion Hin|]); by apply elem_of_nil in Hin|]);
        (split; [by intros [_ [=]]|]); intros _;
        (split; [reflexivity|]); (split; [reflexivity|]);
        (split; [reflexivity|]);
        intros i; (split;
          [ intros Hin; repeat (apply elem_of_cons in Hin as [Hin|Hin];
              [try discriminate; try (by inversion Hin)|]);
            by apply elem_of_nil in Hin
          | by intros [[=] _] ]).
    + do 2 eexists. split; [reflexivity|]. split; [reflexivity|].
      split; [reflexivity|]. split.
      * intros a sz Hin. apply elem_of_cons in Hin as [Hin|Hin];
          [by inversion Hin | by apply elem_of_nil in Hin].
      * split; [done|]. intros [Hne|[f [=]]]. done.
  - do 2 eexists. split; [reflexivity|]. split; [reflexivity|].
    split; [reflexivity|].
    destruct (String.eqb_spec (library st) "H5P.Summary") as [Hsu|Hsu];
    destruct (String.eqb_spec (library st) "H5P.Blanks") as [Hbl|Hbl];
      try (rewrite Hsu in Hbl; discriminate); simpl;
      (split;
        [intros a sz Hin; repeat (apply elem_of_cons in Hin as [Hin|Hin];
           [by inversion Hin|]); by apply elem_of_nil in Hin|]);
      (split; [by intros [? _]|]); intros _;
      (split; [reflexivity|]); (split; [reflexivity|]);
      (split; [reflexivity|]);
      intros i; (split;
        [ intros Hin; repeat (apply elem_of_cons in Hin as [Hin|Hin];
            [try discriminate; try (by inversion Hin)|]);
          by apply elem_of_nil in Hin
        | intros [Hl ->]; try done; repeat constructor ]).
Qed.


(** X24: for an image with [action.params.file], [openDialog] reads the
    stored natural size.  If both dimensions are there and not zero, the
    image is fitted at once: its CSS size is set and the dialog positioned
    once, at [$interaction], with the size [resizeImage] computes in
    doubles, whose width is not greater than the room's; no load is waited
    for.  If one is absent, zero or NaN, the dialog is positioned without a
    size and a load handler is left behind.  That handler, when the image
    is visible, fits the loaded size into the room measured when the dialog
    was opened, and positions the dialog at whatever [$interaction] is by
    then; it does nothing when the image is not visible. *)
Theorem image_dialog_sizing (host : DialogHost) (file : ImageFile)
    (st : State) :
  library st = "H5P.Image" ->
  let max := getMaxSize host (interaction st) in
  let fit := @resizeImage number double_arith (img_fontSize host) max in
  (truthy (file_width file) = true ->
   truthy (file_height file) = true ->
   let stored := mkSize (to_number (file_width file))
                        (to_number (file_height file)) in
   openDialog host (Some file) st
   = ([DialogOpen (length (dom st));
       ImgCss (img_css (fit stored));
       DialogPosition (interaction st) (Some (dialog_size (fit stored)));
       LaterResize (length (runnables st))],
      Ok tt (opened st))
   /\ Num.gt (sz_width (dialog_size (fit stored))) (sz_width max) = false)
  /\ (truthy (file_width file) = false \/ truthy (file_height file) = false ->
      openDialog host (Some file) st
      = ([DialogOpen (length (dom st));
          OnImgLoad max;
          DialogPosition (interaction st) None;
          LaterResize (length (runnables st))],
         Ok tt (opened st)))
  /\ (forall (natural : Size number) (later : State),
        onImgLoad host max false natural later = ([], Ok tt later)
        /\ onImgLoad host max true natural later
           = ([ImgCss (img_css (fit natural));
               DialogPosition (interaction later)
                 (Some (dialog_size (fit natural)))],
              Ok tt later)).
Proof.
  intros Hlib max fit.
  split; [|split].
  - intros Hw Hh stored. split.
    + rewrite openDialog_run, Hlib, Hw, Hh. reflexivity.
    + exact (@fit_width_tested number double_arith max
               (@fit_height number double_arith max
                  (@to_em number double_arith stored)) lt_irrefl).
  - intros Hz. rewrite openDialog_run, Hlib.
    assert (truthy (file_width file) && truthy (file_height file) = false)
      as -> by (destruct Hz as [-> | ->]; [done | apply andb_false_r]).
    reflexivity.
  - intros natural later. split; reflexivity.
Qed.

Lemma image_dialog_sizing_witness :
  openDialog Scene.host (Some (mkImageFile (Sample.sec 1000) (Sample.sec 700)))
    Scene.image_shown
  = ([DialogOpen 2;
      ImgCss (mkSize (Fin 40) (Fin (7881299347898369 # 281474976710656)));
      DialogPosition (Some 0%nat)
        (Some (mkSize (Fin 40) (Fin (7881299347898369 # 281474976710656))));
      LaterResize 0],
     Ok tt (opened Scene.image_shown))
  /\ Num.gt (Fin 40) (Fin 40) = false.
Proof.
  exact (proj1 (image_dialog_sizing Scene.host
                  (mkImageFile (Sample.sec 1000) (Sample.sec 700))
                  Scene.image_shown eq_refl)
           eq_refl eq_refl).
Defined.

(** ** The summary's scrolling *)

Lemma Qltb_comp (a a' b b' : Q) :
  (a == a')%Q -> (b == b')%Q -> Qltb a b = Qltb a' b'.
Proof.
  intros Ea Eb. destruct (Qltb a' b') eqn:E.
  - apply Qltb_lt. apply Qltb_lt in E. by rewrite Ea, Eb.
  - apply Qltb_ge. apply Qltb_ge in E. by rewrite Ea, Eb.
Qed.

Lemma lt_Qred_r (a : number) (q : Q) :
  Num.lt a (Fin (Qred q)) = Num.lt a (Fin q).
Proof.
  destruct a; try reflexivity. cbn [Num.lt].
  apply Qltb_comp; [reflexivity | apply Qred_correct].
Qed.

Lemma lt_Qred_l (a : number) (q : Q) :
  Num.lt (Fin (Qred q)) a = Num.lt (Fin q) a.
Proof.
  destruct a; try reflexivity. cbn [Num.lt].
  apply Qltb_comp; [apply Qred_correct | reflexivity].
Qed.

Lemma dbl_add_fin (a b : Q) : Dbl.add (Fin a) (Fin b) = round64 (a + b).
Proof.
  unfold Dbl.add, Num.add, Dbl.rnd. apply round64_comp, Qred_correct.
Qed.

Lemma dbl_sub_fin (a b : Q) : Dbl.sub (Fin a) (Fin b) = round64 (a - b).
Proof.
  unfold Dbl.sub, Num.sub, Dbl.rnd. apply round64_comp, Qred_correct.
Qed.

Lemma dbl_mul_fin (a b : Q) : Dbl.mul (Fin a) (Fin b) = round64 (a * b).
Proof.
  unfold Dbl.mul, Num.mul, Dbl.rnd. apply round64_comp, Qred_correct.
Qed.

(** A double is not beyond the rounding of anything it is not beyond. *)
Lemma double_le_round (d q : Q) :
  is_double d = true -> (d <= q)%Q -> Num.lt (round64 q) (Fin d) = false.
Proof.
  intros Hd Hle. pose proof (round64_mono d q Hle) as M.
  rewrite (is_double_exact d Hd) in M. by rewrite lt_Qred_r in M.
Qed.

Lemma round_le_double (d q : Q) :
  is_double d = true -> (q <= d)%Q -> Num.lt (Fin d) (round64 q) = false.
Proof.
  intros Hd Hle. pose proof (round64_mono q d Hle) as M.
  rewrite (is_double_exact d Hd) in M. by rewrite lt_Qred_l in M.
Qed.

Lemma summary_step_quiet (last height : Q) :
  is_double last = true ->
  (- (10) <= height - last /\ height - last <= 10)%Q ->
  onSummaryResize (Fin last) (Fin height) = ([], Fin height).
Proof.
  intros Hd [Hlo Hhi]. unfold onSummaryResize, Num.of_Z, Num.gt.
  rewrite dbl_add_fin, dbl_sub_fin.
  rewrite (double_le_round last (height + inject_Z 10) Hd)
    by (change (inject_Z 10) with 10%Q; lra).
  rewrite (round_le_double last (height - inject_Z 10) Hd)
    by (change (inject_Z 10) with 10%Q; lra).
  reflexivity.
Qed.

Lemma Qltb_inject_Z (a b : Z) : Qltb (inject_Z a) (inject_Z b) = (a <? b)%Z.
Proof. unfold Qltb. simpl. by rewrite !Z.mul_1_r. Qed.

Lemma round64_int (z : Z) :
  (Z.abs z < 2 ^ 53)%Z -> round64 (inject_Z z) = Fin (Qred (inject_Z z)).
Proof. intros Hz. apply is_double_exact, is_double_int, Hz. Qed.

(** X25: while a summary is open, a resize whose height is within 10 of the
    height at the previous resize asks for no scroll: the sum and the
    difference the code compares with are rounded, but a double is never
    beyond the rounding of a bound it is within.  As the previous height is
    renewed at every resize, a run of resizes that each move the height by
    at most 10 causes no scroll however far the height drifts in all.  For
    heights in whole pixels the scroll, to the new height, is asked for
    exactly when the height moved by more than 10; for other heights a move
    by a rounding error more than 10 can pass without one. *)
Theorem summary_scroll_dead_zone (last : Q) (heights : list Q) :
  is_double last = true ->
  (forall height : Q,
      (- (10) <= height - last /\ height - last <= 10)%Q ->
      onSummaryResize (Fin last) (Fin height) = ([], Fin height))
  /\ (Forall (fun height => is_double height = true) heights ->
      small_steps last heights ->
      summary_resizes (Fin last) (map Fin heights) = [])
  /\ (forall a b : Z,
        (Z.abs a < 2 ^ 52)%Z -> (Z.abs b < 2 ^ 52)%Z ->
        onSummaryResize (Num.of_Z a) (Num.of_Z b)
        = ((if (10 <? Z.abs (b - a))%Z then [LaterScroll (Num.of_Z b)]
            else []),
           Num.of_Z b))
  /\ (exists l h : Q,
        Dbl.of_Q (1283 # 10) = Fin l /\ Dbl.of_Q (1183 # 10) = Fin h
        /\ (10 < l - h)%Q
        /\ onSummaryResize (Fin l) (Fin h) = ([], Fin h)).
Proof.
  intros Hd. split; [exact (fun height => summary_step_quiet last height Hd)|].
  split; [|split].
  - revert last Hd.
    induction heights as [|height rest IH]; intros last Hd Hall; [done|].
    intros [Hstep Hrest]. cbn [map summary_resizes].
    rewrite (summary_step_quiet last height Hd Hstep). simpl.
    apply Forall_cons in Hall as [Hh Hall]. by apply IH.
  - intros a b Ha Hb. unfold onSummaryResize, Num.of_Z, Num.gt.
    rewrite dbl_add_fin, dbl_sub_fin.
    unfold Qminus. rewrite <- inject_Z_opp, <- !inject_Z_plus.
    rewrite !round64_int by lia.
    rewrite lt_Qred_l, lt_Qred_r. cbn [Num.lt]. rewrite !Qltb_inject_Z.
    assert ((b + 10 <? a)%Z || (a <? b + Z.opp 10)%Z
            = (10 <? Z.abs (b - a))%Z) as ->; [|reflexivity].
    destruct (Z.ltb_spec (b + 10) a), (Z.ltb_spec a (b + Z.opp 10)),
      (Z.ltb_spec 10 (Z.abs (b - a))); simpl; try reflexivity; lia.
  - exists (2257077469498573 # 17592186044416)%Q,
      (8324622436217651 # 70368744177664)%Q.
    split_and!; vm_compute; reflexivity.
Qed.

Lemma summary_scroll_dead_zone_witness :
  summary_resizes (Fin 0) (map Fin [10; 20; 30; 40]%Q) = []
  /\ onSummaryResize (Num.of_Z 0) (Num.of_Z 40)
     = ([LaterScroll (Num.of_Z 40)], Num.of_Z 40).
Proof.
  destruct (summary_scroll_dead_zone 0 [10; 20; 30; 40]%Q eq_refl)
    as (_ & Hdrift & Hint & _).
  split.
  - apply Hdrift.
    + repeat constructor.
    + simpl. repeat split; discriminate.
  - exact (Hint 0%Z 40%Z eq_refl eq_refl).
Defined.

(** ** The seek bar and the window *)

(** X26: [addDot] puts no dot on the seek bar for [H5P.Nil]; for any other
    content the dot sits at the double nearest to [duration.from] times the
    width of a second, so with a width that is not negative the dot of an
    interaction that starts no later is never to the right of the other's,
    rounding included; each dot carries the title and the class of its
    interaction. *)
Theorem addDot_orders_dots (unit f1 f2 : Q) (st1 st2 : State) :
  (library st1 = "H5P.Nil" -> addDot (VNumber (Fin unit)) st1 = None)
  /\ (library st1 <> "H5P.Nil" -> library st2 <> "H5P.Nil" ->
      p_duration_from (parameters st1) = VNumber (Fin f1) ->
      p_duration_from (parameters st2) = VNumber (Fin f2) ->
      (0 <= unit)%Q -> (f1 <= f2)%Q ->
      exists d1 d2,
        addDot (VNumber (Fin unit)) st1 = Some d1
        /\ addDot (VNumber (Fin unit)) st2 = Some d2
        /\ dot_left d1 = round64 (f1 * unit)
        /\ dot_left d2 = round64 (f2 * unit)
        /\ Num.gt (dot_left d1) (dot_left d2) = false
        /\ dot_title d1 = title st1 /\ dot_title d2 = title st2
        /\ dot_class d1 = ["h5p-seekbar-interaction"; classes st1]
        /\ dot_class d2 = ["h5p-seekbar-interaction"; classes st2]).
Proof.
  split.
  - intros Hnil. unfold addDot. by rewrite Hnil.
  - intros H1 H2 Hf1 Hf2 Hu Hle.
    apply String.eqb_neq in H1, H2.
    unfold addDot. rewrite H1, H2, Hf1, Hf2. cbn [to_number].
    rewrite !dbl_mul_fin.
    do 2 eexists. split; [reflexivity|]. split; [reflexivity|].
    cbn [dot_left dot_title dot_class].
    split_and!; try reflexivity.
    apply round64_mono. nra.
Qed.

Lemma addDot_orders_dots_witness :
  addDot (VNumber (Dbl.of_Q (100 / 37))) Scene.subtitle = None
  /\ exists d1 d2,
       addDot (VNumber (Fin (3042972721196281 # 1125899906842624)))
         Sample.button = Some d1
       /\ addDot (VNumber (Fin (3042972721196281 # 1125899906842624)))
            Scene.backwards = Some d2
       /\ dot_left d1 = Fin (3803715901495351 # 281474976710656)
       /\ Num.gt (dot_left d1) (dot_left d2) = false.
Proof.
  split.
  - exact (proj1 (addDot_orders_dots (3042972721196281 # 1125899906842624)
                    5 5 Scene.subtitle Scene.subtitle) eq_refl).
  - assert (A1 : library Sample.button <> "H5P.Nil") by discriminate.
    assert (A2 : library Scene.backwards <> "H5P.Nil") by discriminate.
    assert (A3 : (0 <= 3042972721196281 # 1125899906842624)%Q) by discriminate.
    assert (A4 : (5 <= 10)%Q) by discriminate.
    destruct (proj2 (addDot_orders_dots
                       (3042972721196281 # 1125899906842624) 5 10
                       Sample.button Scene.backwards)
                A1 A2 eq_refl eq_refl A3 A4)
      as (d1 & d2 & H1 & H2 & H3 & H4 & H5 & _).
    exists d1, d2. split; [exact H1|]. split; [exact H2|].
    split; [|exact H5]. rewrite H3. vm_compute. reflexivity.
Defined.

(** X27: with a window whose end lies before its start no second is inside
    it: whatever finite second [toggle] is given, nothing is on display
    afterwards, and an element that was on display is removed. *)
Theorem toggle_empty_window_never_shows (br : Browser) (st : State)
    (s f t : Q) :
  p_duration_from (parameters st) = VNumber (Fin f) ->
  p_duration_to (parameters st) = VNumber (Fin t) ->
  (t < f)%Q ->
  exists st',
    toggle br (VNumber (Fin s)) st = Ok None st'
    /\ interaction st' = None
    /\ displayed st' = displayed st
    /\ forall h n, interaction st = Some h -> dom st !! h = Some n ->
                   dom st' !! h = Some (node_remove n).
Proof.
  intros Hf Ht Hlt.
  assert (Hw : window_test (VNumber (Fin s)) st = false).
  { apply not_true_is_false. intros Hin.
    apply (window_test_finite s f t st Hf Ht) in Hin. lra. }
  destruct (toggle_outside br _ st Hw) as (st' & Htg & Hi & Hd & _).
  exists st'. split_and!; try done.
  intros h n Hh Hn.
  pose proof (remove_dom br false st) as Hr. rewrite Hh in Hr.
  unfold toggle, bind, get in Htg.
  unfold window_test in Hw. rewrite negb_false_iff in Hw.
  rewrite Hw, Hh in Htg. simpl in Htg. unfold ret in Htg.
  destruct (remove br false st) as [[] s2|]; [|discriminate].
  injection Htg as <-. simpl in Hr.
  by rewrite Hr, list_lookup_alter_eq, Hn.
Qed.

Lemma toggle_empty_window_never_shows_witness :
  exists st',
    toggle Sample.browser (Sample.sec 7) Scene.backwards = Ok None st'
    /\ interaction st' = None.
Proof.
  destruct (toggle_empty_window_never_shows Sample.browser Scene.backwards
              7 10 5 eq_refl eq_refl eq_refl) as (st' & Ht & Hi & _).
  exists st'. split; [exact Ht | exact Hi].
Defined.

Lemma toggle_out_and_in_recreates_witness :
  exists st1 st2 h',
    toggle Sample.browser (Sample.sec 12) Sample.button_shown = Ok None st1
    /\ interaction st1 = None
    /\ toggle Sample.browser (Sample.sec 7) st1 = Ok (Some h') st2
    /\ interaction st2 = Some h'
    /\ h' <> 0%nat
    /\ dom st2 !! 0%nat = Some (node_remove Scene.button_node)
    /\ displayed st2 = displayed Sample.button_shown ++ [h'].
Proof.
  exact (toggle_out_and_in_recreates Sample.browser Sample.browser
           (Sample.sec 12) (Sample.sec 7) Sample.button_shown 0
           Scene.button_node eq_refl eq_refl eq_refl eq_refl).
Defined.
